(** * The person service of packages/lib/services/person.ts

    A shallow embedding of the data-access layer for the "person" entity:
    the shape transformation [transformPrismaPerson], the Prisma selection
    [selectPerson], and the exported operations [getPerson],
    [getPersonCached], [getPeople], [createPerson], [deletePerson],
    [getOrCreatePersonByUserId] and [updatePersonAttribute].

    The asynchronous functions of the source are sequential: every [await]
    is followed by the rest of the body.  They are embedded in a state and
    exception monad over a [World] that holds the database, the Next.js
    data cache, the clock and the bookkeeping needed to observe collaborator
    calls. *)

From Stdlib Require Import String List Bool Arith Lia.
From stdpp Require Import base option list gmap strings pretty fin_maps.

Local Open Scope string_scope.
Local Open Scope list_scope.
Local Open Scope nat_scope.

(** ** Errors *)

(** The error classes that can travel through the service: the three
    classes of @formbricks/types/v1/errors, the Prisma client's
    [PrismaClientKnownRequestError] (the only class the [catch] blocks test
    with [instanceof]), every other error the Prisma client may raise, and
    a plain JavaScript [Error]. *)
Inductive Error : Type :=
| ValidationError
| DatabaseError (message : string)
| ResourceNotFoundError (resource id : string)
| PrismaClientKnownRequestError (code message : string)
| PrismaClientOtherError (message : string)
| JsError (message : string).

(** [error instanceof Prisma.PrismaClientKnownRequestError] *)
Definition isPrismaClientKnownRequestError (error : Error) : bool :=
  match error with
  | PrismaClientKnownRequestError _ _ => true
  | _ => false
  end.

#[global] Instance Error_eq_dec : EqDecision Error.
Proof. solve_decision. Defined.

(** ** Data model *)

Definition Date := nat.

(** The argument type of [transformPrismaPerson]. *)
Record AttributeClassName := { name : string }.

Record AttributeInput := {
  value : string;
  attributeClass : AttributeClassName;
}.

Record TransformPersonInput := {
  input_id : string;
  input_attributes : list AttributeInput;
  input_createdAt : Date;
  input_updatedAt : Date;
}.

(** [TPerson]; the [attributes] object is used as a map from attribute
    names to values: the map holds the object's own properties. *)
Record TPerson := {
  id : string;
  attributes : gmap string string;
  createdAt : Date;
  updatedAt : Date;
}.

#[global] Instance TPerson_eq_dec : EqDecision TPerson.
Proof. solve_decision. Defined.

(** [acc[key] = value] on an object created by the literal [{}], for a
    primitive [value].  The object inherits from Object.prototype, whose
    one accessor property is [__proto__]: assigning a string to it runs
    the inherited setter, which ignores every value that is neither an
    object nor null, and no own property is created.  Every other key
    becomes (or overwrites) an own property. *)
Definition setProperty (key value : string) (acc : gmap string string)
    : gmap string string :=
  if bool_decide (key = "__proto__") then acc else <[ key := value ]> acc.

(** [person.attributes.reduce((acc, attr) => { acc[name] = value; return acc }, {})] *)
Definition transformPrismaPerson (person : TransformPersonInput) : TPerson :=
  let attributes :=
    fold_left
      (fun acc attr => setProperty (name (attributeClass attr)) (value attr) acc)
      (input_attributes person)
      (∅ : gmap string string) in
  {| id := input_id person;
     attributes := attributes;
     createdAt := input_createdAt person;
     updatedAt := input_updatedAt person |}.

(** What [JSON.parse(JSON.stringify(date))] gives for a [Date]: the string
    of its ISO 8601 form, no longer a [Date]. *)
Inductive IsoString : Type :=
| toISOString (date : Date).

#[global] Instance IsoString_eq_dec : EqDecision IsoString.
Proof. solve_decision. Defined.

(** A person after [JSON.parse(JSON.stringify(person))]: the id and the
    attributes (strings under ordinary property names) come back as they
    were, the two dates come back as strings. *)
Record SerializedPerson := {
  json_id : string;
  json_attributes : gmap string string;
  json_createdAt : IsoString;
  json_updatedAt : IsoString;
}.

#[global] Instance SerializedPerson_eq_dec : EqDecision SerializedPerson.
Proof. solve_decision. Defined.

Definition jsonRoundTrip (person : TPerson) : SerializedPerson :=
  {| json_id := id person;
     json_attributes := attributes person;
     json_createdAt := toISOString (createdAt person);
     json_updatedAt := toISOString (updatedAt person) |}.

(** What a call of [getPersonCached] resolves to: the value its callback
    computed, or the parsed body of a cache entry ([null] is [None] in
    both). *)
Inductive Answer : Type :=
| Computed (person : option TPerson)
| Parsed (person : option SerializedPerson).

#[global] Instance Answer_eq_dec : EqDecision Answer.
Proof. solve_decision. Defined.

(** ** The store *)

(** Rows of the three tables the service touches, with the columns it
    reads or writes. *)
Record PersonRow := {
  person_id : string;
  person_environmentId : string;
  person_createdAt : Date;
  person_updatedAt : Date;
}.

Record TAttributeClass := {
  attributeClass_id : string;
  attributeClass_name : string;
  attributeClass_archived : bool;
  attributeClass_environmentId : string;
}.

Record AttributeRow := {
  attribute_attributeClassId : string;
  attribute_personId : string;
  attribute_value : string;
}.

Record Database := {
  environments : list string;
  persons : list PersonRow;
  attributeClasses : list TAttributeClass;
  attributeRows : list AttributeRow;
  idCounter : nat;
}.

(** The selection object handed to Prisma.  Its scalar selections fix the
    shape [TransformPersonInput]; the one part that changes which rows come
    back is the [where] clause on the attribute's class. *)
Record PersonSelect := {
  attributes_where_attributeClass_archived : option bool;
}.

Definition selectPerson : PersonSelect :=
  {| attributes_where_attributeClass_archived := Some false |}.

(** ** Completions and the query engine *)

(** How a call ends: with a value, or with a thrown error. *)
Inductive Completion (A : Type) : Type :=
| Return (a : A)
| Throw (error : Error).
Arguments Return {A} a.
Arguments Throw {A} error.

#[global] Instance Completion_eq_dec {A} `{EqDecision A} : EqDecision (Completion A).
Proof. solve_decision. Defined.

(** The Prisma queries the service issues, as functions of the database.
    A query that meets a missing record or a violated constraint ends with
    a [PrismaClientKnownRequestError], as the client does. *)
Module Query.

Definition recordNotFound : Error :=
  PrismaClientKnownRequestError "P2025"
    "An operation failed because it depends on one or more records that were required but not found.".

Definition uniqueConstraint : Error :=
  PrismaClientKnownRequestError "P2002" "Unique constraint failed on the fields: (`id`)".

Definition findClass (db : Database) (classId : string) : option TAttributeClass :=
  head (filter (λ c, attributeClass_id c = classId) (attributeClasses db)).

Definition findPerson (db : Database) (personId : string) : option PersonRow :=
  head (filter (λ p, person_id p = personId) (persons db)).

(** The nested selection on one attribute row: the [where] clause on the
    class, then the selected value and class name. *)
Definition selectAttribute (select : PersonSelect) (db : Database)
    (row : AttributeRow) : option AttributeInput :=
  match findClass db (attribute_attributeClassId row) with
  | Some c =>
      if match attributes_where_attributeClass_archived select with
         | Some flag => bool_decide (attributeClass_archived c = flag)
         | None => true
         end
      then Some {| value := attribute_value row;
                   attributeClass := {| name := attributeClass_name c |} |}
      else None
  | None => None
  end.

Definition selectAttributes (select : PersonSelect) (db : Database)
    (personId : string) : list AttributeInput :=
  omap (selectAttribute select db)
       (filter (λ r, attribute_personId r = personId) (attributeRows db)).

Definition applySelect (select : PersonSelect) (db : Database)
    (p : PersonRow) : TransformPersonInput :=
  {| input_id := person_id p;
     input_attributes := selectAttributes select db (person_id p);
     input_createdAt := person_createdAt p;
     input_updatedAt := person_updatedAt p |}.

(** [prisma.person.findUnique({ where: { id }, select })] *)
Definition person_findUnique (personId : string) (select : PersonSelect)
    (db : Database) : Completion (option TransformPersonInput) * Database :=
  (Return (applySelect select db <$> findPerson db personId), db).

(** [prisma.person.findMany({ where: { environmentId }, select })].  The
    result is nullable for the caller, though the client always answers
    with an array. *)
Definition person_findMany (environmentId : string) (select : PersonSelect)
    (db : Database) : Completion (option (list TransformPersonInput)) * Database :=
  (Return (Some (applySelect select db <$>
                   filter (λ p, person_environmentId p = environmentId) (persons db))),
   db).

(** [attributes: { some: { attributeClass: { name }, value } }] *)
Definition someAttribute (db : Database) (className attrValue : string)
    (p : PersonRow) : Prop :=
  Exists (λ r, attribute_personId r = person_id p
               ∧ attribute_value r = attrValue
               ∧ attributeClass_name <$> findClass db (attribute_attributeClassId r)
                 = Some className)
         (attributeRows db).

#[global] Instance someAttribute_dec db className attrValue p :
  Decision (someAttribute db className attrValue p).
Proof. unfold someAttribute. apply _. Defined.

(** [prisma.person.findFirst({ where: { environmentId, attributes: { some } }, select })] *)
Definition person_findFirst (environmentId className attrValue : string)
    (select : PersonSelect) (db : Database)
    : Completion (option TransformPersonInput) * Database :=
  (Return (applySelect select db <$>
             head (filter (λ p, person_environmentId p = environmentId
                                ∧ someAttribute db className attrValue p)
                          (persons db))),
   db).

(** [prisma.person.create({ data: { environment: { connect }, attributes: { create } }, select })].
    [attrs] lists the nested attribute creations as (class id, value).
    The store generates the id ([genId] at the next counter) and the two
    timestamps. *)
Definition person_create (genId : nat → string) (today : Date)
    (environmentId : string) (attrs : list (string * string))
    (select : PersonSelect) (db : Database)
    : Completion TransformPersonInput * Database :=
  if bool_decide (environmentId ∈ environments db
                  ∧ Forall (λ a, is_Some (findClass db a.1)) attrs) then
    let newId := genId (idCounter db) in
    if bool_decide (is_Some (findPerson db newId)) then
      (Throw uniqueConstraint, db)
    else
      let row := {| person_id := newId;
                    person_environmentId := environmentId;
                    person_createdAt := today;
                    person_updatedAt := today |} in
      let db' :=
        {| environments := environments db;
           persons := persons db ++ [row];
           attributeClasses := attributeClasses db;
           attributeRows :=
             attributeRows db ++
             ((λ a, {| attribute_attributeClassId := a.1;
                       attribute_personId := newId;
                       attribute_value := a.2 |}) <$> attrs);
           idCounter := S (idCounter db) |} in
      (Return (applySelect select db' row), db')
  else (Throw recordNotFound, db).

(** [prisma.person.delete({ where: { id } })]; the person's attribute
    rows go with it (cascade). *)
Definition person_delete (personId : string) (db : Database)
    : Completion PersonRow * Database :=
  match findPerson db personId with
  | Some p =>
      (Return p,
       {| environments := environments db;
          persons := filter (λ q, person_id q ≠ personId) (persons db);
          attributeClasses := attributeClasses db;
          attributeRows := filter (λ r, attribute_personId r ≠ personId) (attributeRows db);
          idCounter := idCounter db |})
  | None => (Throw recordNotFound, db)
  end.

(** The rows selected by the compound unique key [attributeClassId_personId]. *)
Definition keyed (attributeClassId personId : string) (r : AttributeRow) : Prop :=
  attribute_attributeClassId r = attributeClassId ∧ attribute_personId r = personId.

#[global] Instance keyed_dec c p r : Decision (keyed c p r).
Proof. unfold keyed. apply _. Defined.

Definition setValue (attrValue : string) (r : AttributeRow) : AttributeRow :=
  {| attribute_attributeClassId := attribute_attributeClassId r;
     attribute_personId := attribute_personId r;
     attribute_value := attrValue |}.

(** [prisma.attribute.upsert({ where: { attributeClassId_personId }, update, create })] *)
Definition attribute_upsert (attributeClassId personId attrValue : string)
    (db : Database) : Completion AttributeRow * Database :=
  let row := {| attribute_attributeClassId := attributeClassId;
                attribute_personId := personId;
                attribute_value := attrValue |} in
  if bool_decide (Exists (keyed attributeClassId personId) (attributeRows db)) then
    (Return row,
     {| environments := environments db;
        persons := persons db;
        attributeClasses := attributeClasses db;
        attributeRows :=
          (λ r, if bool_decide (keyed attributeClassId personId r)
                then setValue attrValue r else r) <$> attributeRows db;
        idCounter := idCounter db |})
  else if bool_decide (is_Some (findClass db attributeClassId)
                       ∧ is_Some (findPerson db personId)) then
    (Return row,
     {| environments := environments db;
        persons := persons db;
        attributeClasses := attributeClasses db;
        attributeRows := attributeRows db ++ [row];
        idCounter := idCounter db |})
  else (Throw recordNotFound, db).

(** [prisma.attributeClass.findFirst({ where: { environmentId, name } })] *)
Definition attributeClass_findFirst (environmentId className : string)
    (db : Database) : Completion (option TAttributeClass) * Database :=
  (Return (head (filter (λ c, attributeClass_environmentId c = environmentId
                              ∧ attributeClass_name c = className)
                        (attributeClasses db))),
   db).

End Query.

(** ** The world around the service *)

(** An entry of the Next.js data cache, as [unstable_cache] keeps it: the
    key, the tags, the last second at which the entry is still fresh (the
    time it was filed plus the [revalidate] option) and the body, which is
    the JSON text of the value and is kept here as what parsing it gives. *)
Record CacheEntry := {
  entry_key : list string;
  entry_tags : list string;
  entry_expires : Date;
  entry_value : option SerializedPerson;
}.

#[global] Instance CacheEntry_eq_dec : EqDecision CacheEntry.
Proof. solve_decision. Defined.

(** The calls that reach the store, as they are recorded in the world. *)
Inductive StoreCall : Type :=
| PersonFindUnique (personId : string)
| PersonFindMany (environmentId : string)
| PersonFindFirst (environmentId className attrValue : string)
| PersonCreate (environmentId : string) (attrs : list (string * string))
| PersonDelete (personId : string)
| AttributeUpsert (attributeClassId personId attrValue : string)
| AttributeClassFindFirst (environmentId className : string).

#[global] Instance StoreCall_eq_dec : EqDecision StoreCall.
Proof. solve_decision. Defined.

(** [database] and [cache] are the two stores; [clock] is the time in
    seconds; [faults] scripts the outcome of the coming store calls
    ([Some error]: the call fails with [error] before touching the
    database); [storeLog] and [revalidated] record the calls made to the
    store and to [revalidateTag]. *)
Record World := {
  database : Database;
  cache : list CacheEntry;
  clock : Date;
  faults : list (option Error);
  storeLog : list StoreCall;
  revalidated : list string;
}.

Definition M (A : Type) : Type := World → Completion A * World.

#[global] Instance M_ret : MRet M := λ A a w, (Return a, w).

#[global] Instance M_bind : MBind M := λ A B f m w,
  match m w with
  | (Return a, w') => f a w'
  | (Throw error, w') => (Throw error, w')
  end.

Definition throw {A} (error : Error) : M A := λ w, (Throw error, w).

(** [try { body } catch (error) { handler }] *)
Definition tryCatch {A} (body : M A) (handler : Error → M A) : M A := λ w,
  match body w with
  | (Return a, w') => (Return a, w')
  | (Throw error, w') => handler error w'
  end.

(** The world after a store call that left the database as [db]. *)
Definition called (call : StoreCall) (db : Database) (w : World) : World :=
  {| database := db;
     cache := cache w;
     clock := clock w;
     faults := tail (faults w);
     storeLog := storeLog w ++ [call];
     revalidated := revalidated w |}.

(** One round trip to the store: the call is recorded, the next entry of
    the fault script is consumed, and the query runs unless a fault was
    scripted. *)
Definition roundTrip {A} (call : StoreCall)
    (query : Date → Database → Completion A * Database) : M A := λ w,
  let outcome :=
    match head (faults w) with
    | Some (Some error) => (Throw error, database w)
    | _ => query (clock w) (database w)
    end in
  (outcome.1, called call outcome.2 w).

(** The methods of the [prisma] client the service calls. *)
Definition prisma_person_findUnique (personId : string) (select : PersonSelect)
    : M (option TransformPersonInput) :=
  roundTrip (PersonFindUnique personId) (λ _, Query.person_findUnique personId select).

Definition prisma_person_findMany (environmentId : string) (select : PersonSelect)
    : M (option (list TransformPersonInput)) :=
  roundTrip (PersonFindMany environmentId) (λ _, Query.person_findMany environmentId select).

Definition prisma_person_findFirst (environmentId className attrValue : string)
    (select : PersonSelect) : M (option TransformPersonInput) :=
  roundTrip (PersonFindFirst environmentId className attrValue)
            (λ _, Query.person_findFirst environmentId className attrValue select).

Definition prisma_person_create (genId : nat → string) (environmentId : string)
    (attrs : list (string * string)) (select : PersonSelect)
    : M TransformPersonInput :=
  roundTrip (PersonCreate environmentId attrs)
            (λ today, Query.person_create genId today environmentId attrs select).

Definition prisma_person_delete (personId : string) : M PersonRow :=
  roundTrip (PersonDelete personId) (λ _, Query.person_delete personId).

Definition prisma_attribute_upsert (attributeClassId personId attrValue : string)
    : M AttributeRow :=
  roundTrip (AttributeUpsert attributeClassId personId attrValue)
            (λ _, Query.attribute_upsert attributeClassId personId attrValue).

Definition prisma_attributeClass_findFirst (environmentId className : string)
    : M (option TAttributeClass) :=
  roundTrip (AttributeClassFindFirst environmentId className)
            (λ _, Query.attributeClass_findFirst environmentId className).

(** [revalidateTag(tag)] of next/cache: every entry carrying the tag is
    dropped, so that the next cached call with that tag recomputes. *)
Definition revalidateTag (tag : string) : M unit := λ w,
  (Return (),
   {| database := database w;
      cache := filter (λ e, tag ∉ entry_tags e) (cache w);
      clock := clock w;
      faults := faults w;
      storeLog := storeLog w;
      revalidated := revalidated w ++ [tag] |}).

Record CacheOptions := {
  tags : list string;
  revalidate : nat;
}.

(** The entry filed under a key, whatever its age. *)
Definition cachedEntry (keyParts : list string) (w : World) : option CacheEntry :=
  head (filter (λ e, entry_key e = keyParts) (cache w)).

(** An entry is fresh up to and including the second at which its age
    reaches [revalidate]; it is stale from the next second on. *)
Definition isFresh (e : CacheEntry) (w : World) : Prop :=
  clock w ≤ entry_expires e.

#[global] Instance isFresh_dec e w : Decision (isFresh e w).
Proof. unfold isFresh. apply _. Defined.

(** The cache write of [unstable_cache]: the JSON text of the value goes
    under the key, with the tags, in place of any older entry of the key. *)
Definition fileEntry (keyParts : list string) (options : CacheOptions)
    (v : option TPerson) (w : World) : World :=
  {| database := database w;
     cache := {| entry_key := keyParts;
                 entry_tags := tags options;
                 entry_expires := clock w + revalidate options;
                 entry_value := jsonRoundTrip <$> v |}
              :: filter (λ e, entry_key e ≠ keyParts) (cache w);
     clock := clock w;
     faults := faults w;
     storeLog := storeLog w;
     revalidated := revalidated w |}.

(** [unstable_cache(cb, keyParts, options)()] of next/cache, called while
    a request is being handled.

    - No entry under the key: [cb] runs; its value is filed and is also
      the answer, as [cb] computed it.  A rejected [cb] files nothing and
      its error is the outcome.
    - A fresh entry: the answer is the parsed body of the entry, and
      [cb] does not run.
    - A stale entry: the answer is still the parsed body of the entry;
      [cb] runs behind the answer to refresh the entry, and its value
      replaces the entry when it arrives.  The refresh is run to its end
      within the call here; Next awaits it before the request is over.
      A rejected refresh is logged and leaves the stale entry in place. *)
Definition unstable_cache (cb : M (option TPerson)) (keyParts : list string)
    (options : CacheOptions) : M Answer := λ w,
  match cachedEntry keyParts w with
  | Some e =>
      if bool_decide (isFresh e w)
      then (Return (Parsed (entry_value e)), w)
      else
        match cb w with
        | (Return v, w') => (Return (Parsed (entry_value e)), fileEntry keyParts options v w')
        | (Throw _, w') => (Return (Parsed (entry_value e)), w')
        end
  | None =>
      match cb w with
      | (Return v, w') => (Return (Computed v), fileEntry keyParts options v w')
      | (Throw error, w') => (Throw error, w')
      end
  end.

(** [cache(fn)] of react, for a function of one string: within one
    request, the first call with an argument runs [fn] and keeps how it
    ended (the promise, fulfilled or rejected); a later call with the same
    argument ends the same way without running [fn].  The table of kept
    outcomes belongs to the request. *)
Definition Memo (A : Type) : Type := list (string * Completion A).

Definition kept {A} (arg : string) (memo : list (string * Completion A))
    : option (Completion A) :=
  snd <$> head (filter (λ entry, entry.1 = arg) memo).

Definition reactCache {A} (fn : string → M A) (arg : string)
    (memo : Memo A) (w : World) : Completion A * World * Memo A :=
  match kept arg memo with
  | Some outcome => (outcome, w, memo)
  | None =>
      let outcome := fn arg w in
      (outcome.1, outcome.2, (arg, outcome.1) :: memo)
  end.

(** ** The service *)

Section PersonService.

(** [ZId], the identifier schema of @formbricks/types/v1/environment, as
    the outcome of its parse; [genId], the store's id generator. *)
Variable ZId : string → bool.
Variable genId : nat → string.

(** Modelled from the spec: [validateInputs] of ../utils/validate, which
    is not part of the sources at hand.  Each (value, schema) pair is
    checked in turn; the first value that fails its schema ends the call
    with a ValidationError, before any collaborator is reached. *)
Fixpoint validateInputs (pairs : list (string * (string → bool))) : M unit :=
  match pairs with
  | [] => mret ()
  | (input, schema) :: rest =>
      if schema input then validateInputs rest else throw ValidationError
  end.

(** Modelled from the spec: [getAttributeClassByName] of ./attributeClass,
    which is not part of the sources at hand.  It resolves
    (environmentId, name) to the attribute class record, or to absent,
    with one lookup in the store. *)
Definition getAttributeClassByName (environmentId className : string)
    : M (option TAttributeClass) :=
  prisma_attributeClass_findFirst environmentId className.

(** The body that [cache] of react wraps; the wrapped function is
    [getPersonInRequest] below. *)
Definition getPerson (personId : string) : M (option TPerson) :=
  validateInputs [(personId, ZId)];;
  tryCatch
    (personPrisma ← prisma_person_findUnique personId selectPerson;
     match personPrisma with
     | None => mret None
     | Some personPrisma =>
         let person := transformPrismaPerson personPrisma in
         mret (Some person)
     end)
    (λ error,
       if isPrismaClientKnownRequestError error
       then throw (DatabaseError "Database operation failed")
       else throw error).

Definition getPersonCacheKey (personId : string) : list string := [personId].

Definition getPersonCached (personId : string) : M Answer :=
  unstable_cache
    (getPerson personId)
    (getPersonCacheKey personId)
    {| tags := getPersonCacheKey personId;
       revalidate := 30 * 60 |}.

(** The body that [cache] of react wraps; the wrapped function is
    [getPeopleInRequest] below.  [transformPrismaPerson] never answers
    null, so the [filter] keeps every mapped person. *)
Definition getPeople (environmentId : string) : M (list TPerson) :=
  validateInputs [(environmentId, ZId)];;
  tryCatch
    (personsPrisma ← prisma_person_findMany environmentId selectPerson;
     match personsPrisma with
     | None => throw (ResourceNotFoundError "Persons" "All Persons")
     | Some personsPrisma =>
         let transformedPeople :=
           omap (λ person : option TPerson, person)
                ((λ p, Some (transformPrismaPerson p)) <$> personsPrisma) in
         mret transformedPeople
     end)
    (λ error,
       if isPrismaClientKnownRequestError error
       then throw (DatabaseError "Database operation failed")
       else throw error).

(** [if (person)] holds for every object, so the tag is always revalidated. *)
Definition createPerson (environmentId : string) : M TPerson :=
  validateInputs [(environmentId, ZId)];;
  tryCatch
    (personPrisma ← prisma_person_create genId environmentId [] selectPerson;
     let person := transformPrismaPerson personPrisma in
     revalidateTag (id person);;
     mret person)
    (λ error,
       match error with
       | PrismaClientKnownRequestError _ message => throw (DatabaseError message)
       | _ => throw error
       end).

Definition deletePerson (personId : string) : M unit :=
  validateInputs [(personId, ZId)];;
  tryCatch
    (prisma_person_delete personId;;
     revalidateTag personId)
    (λ error,
       if isPrismaClientKnownRequestError error
       then throw (DatabaseError "Database operation failed")
       else throw error).

(** [if (personPrisma)] after the creation holds for every object. *)
Definition getOrCreatePersonByUserId (userId environmentId : string) : M TPerson :=
  personPrisma ← prisma_person_findFirst environmentId "userId" userId selectPerson;
  match personPrisma with
  | Some personPrisma =>
      let person := transformPrismaPerson personPrisma in
      mret person
  | None =>
      userIdAttributeClass ← getAttributeClassByName environmentId "userId";
      match userIdAttributeClass with
      | None => throw (JsError "Attribute class not found for the given environmentId")
      | Some userIdAttributeClass =>
          personPrisma ←
            prisma_person_create genId environmentId
              [(attributeClass_id userIdAttributeClass, userId)] selectPerson;
          revalidateTag (input_id personPrisma);;
          mret (transformPrismaPerson personPrisma)
      end
  end.

Definition updatePersonAttribute (personId attributeClassId attrValue : string)
    : M unit :=
  prisma_attribute_upsert attributeClassId personId attrValue;;
  revalidateTag personId.

(** The exported [getPerson] and [getPeople]: the bodies above under
    [cache] of react, each with the request's table of kept outcomes. *)
Definition getPersonInRequest (personId : string) (memo : Memo (option TPerson))
    (w : World) : Completion (option TPerson) * World * Memo (option TPerson) :=
  reactCache getPerson personId memo w.

Definition getPeopleInRequest (environmentId : string) (memo : Memo (list TPerson))
    (w : World) : Completion (list TPerson) * World * Memo (list TPerson) :=
  reactCache getPeople environmentId memo w.

End PersonService.

(** ** Vocabulary of the properties *)

(** The outcome of [getPerson] as [getPersonCached] hands it on when it
    had to compute. *)
Definition computed (outcome : Completion (option TPerson)) : Completion Answer :=
  match outcome with
  | Return v => Return (Computed v)
  | Throw error => Throw error
  end.

(** The [reduce] of [transformPrismaPerson], from any accumulator. *)
Definition reduced (l : list AttributeInput) (acc : gmap string string)
    : gmap string string :=
  fold_left (λ acc attr, setProperty (name (attributeClass attr)) (value attr) acc) l acc.

(** The next [n] store calls are not scripted to fail. *)
Definition storeUp (n : nat) (w : World) : Prop :=
  Forall (λ f, f = None) (take n (faults w)).

#[global] Instance storeUp_dec n w : Decision (storeUp n w).
Proof. unfold storeUp. apply _. Defined.

(** [operation] treats the errors of its [store] call the way the [catch]
    blocks do: a known request error comes out as [wrap code message],
    every other error comes out as it is. *)
Definition rewraps {A B} (store : M A) (operation : M B)
    (wrap : string → string → Error) (w : World) : Prop :=
  (∀ code message,
     (store w).1 = Throw (PrismaClientKnownRequestError code message) →
     (operation w).1 = Throw (wrap code message))
  ∧ (∀ error,
       isPrismaClientKnownRequestError error = false →
       (store w).1 = Throw error →
       (operation w).1 = Throw error).

(** The tag was revalidated on the way from [w] to [w']: once, as the last
    cache action, dropping every entry that carries it. *)
Definition invalidated (tag : string) (w w' : World) : Prop :=
  revalidated w' = revalidated w ++ [tag]
  ∧ cache w' = filter (λ e, tag ∉ entry_tags e) (cache w).

(** Nothing happened to the cache on the way from [w] to [w']. *)
Definition cacheUntouched (w w' : World) : Prop :=
  revalidated w' = revalidated w ∧ cache w' = cache w.

(** Every entry of the person's [attributes] comes from an attribute row
    of that person whose class carries the entry's name and is not
    archived. *)
Definition onlyLiveAttributes (db : Database) (person : TPerson) : Prop :=
  ∀ k v,
    attributes person !! k = Some v →
    ∃ row cls,
      row ∈ attributeRows db
      ∧ attribute_personId row = id person
      ∧ attribute_value row = v
      ∧ Query.findClass db (attribute_attributeClassId row) = Some cls
      ∧ attributeClass_name cls = k
      ∧ attributeClass_archived cls = false.

(** Time passes. *)
Definition elapse (seconds : nat) (w : World) : World :=
  {| database := database w;
     cache := cache w;
     clock := clock w + seconds;
     faults := faults w;
     storeLog := storeLog w;
     revalidated := revalidated w |}.

(** The compound key of an attribute row, the row an upsert files under a
    key, and what the update branch of the upsert does to one row. *)
Definition rowKey (r : AttributeRow) : string * string :=
  (attribute_attributeClassId r, attribute_personId r).

Definition newRow (c p v : string) : AttributeRow :=
  {| attribute_attributeClassId := c; attribute_personId := p; attribute_value := v |}.

Definition overwrite (c p v : string) (r : AttributeRow) : AttributeRow :=
  if bool_decide (Query.keyed c p r) then Query.setValue v r else r.

(** The person row [person_create] adds, and the database it leaves, with
    one attribute row per entry of [attrs]. *)
Definition createdRow (genId : nat → string) (today : Date) (environmentId : string)
    (db : Database) : PersonRow :=
  {| person_id := genId (idCounter db);
     person_environmentId := environmentId;
     person_createdAt := today;
     person_updatedAt := today |}.

Definition created (genId : nat → string) (today : Date) (environmentId : string)
    (attrs : list (string * string)) (db : Database) : Database :=
  {| environments := environments db;
     persons := persons db ++ [createdRow genId today environmentId db];
     attributeClasses := attributeClasses db;
     attributeRows :=
       attributeRows db ++ ((λ a, newRow a.1 (genId (idCounter db)) a.2) <$> attrs);
     idCounter := S (idCounter db) |}.

(** The filter of the lookup in [getOrCreatePersonByUserId]: a person of
    the environment with the value on a class named userId. *)
Definition ownsUserId (db : Database) (environmentId userId : string)
    (p : PersonRow) : Prop :=
  person_environmentId p = environmentId ∧ Query.someAttribute db "userId" userId p.

#[global] Instance ownsUserId_dec db environmentId userId p :
  Decision (ownsUserId db environmentId userId p).
Proof. unfold ownsUserId. apply _. Defined.

(** What the store holds for a person id, in the shape of [TPerson]. *)
Definition storedPerson (db : Database) (personId : string) : option TPerson :=
  (λ p, transformPrismaPerson (Query.applySelect selectPerson db p))
    <$> Query.findPerson db personId.

(** The constraints the schema puts on the tables: primary keys, the
    compound unique key of the attribute rows, and foreign keys. *)
Definition wellFormed (db : Database) : Prop :=
  NoDup (person_id <$> persons db)
  ∧ NoDup (attributeClass_id <$> attributeClasses db)
  ∧ NoDup (rowKey <$> attributeRows db)
  ∧ Forall (λ p, person_environmentId p ∈ environments db) (persons db)
  ∧ Forall (λ c, attributeClass_environmentId c ∈ environments db) (attributeClasses db)
  ∧ Forall (λ r, is_Some (Query.findClass db (attribute_attributeClassId r))
                 ∧ is_Some (Query.findPerson db (attribute_personId r)))
           (attributeRows db).

#[global] Instance wellFormed_dec db : Decision (wellFormed db).
Proof. unfold wellFormed. apply _. Defined.

(** The id generator never hands out an id twice, and the ids in use were
    handed out before the counter's current position. *)
Definition freshIds (genId : nat → string) (db : Database) : Prop :=
  Inj (=) (=) genId
  ∧ Forall (λ p, ∃ n, n < idCounter db ∧ person_id p = genId n) (persons db).

(** A database the service can keep working on. *)
Definition sound (genId : nat → string) (db : Database) : Prop :=
  wellFormed db ∧ freshIds genId db.

(** A cache entry agrees with the store: it was filed by [getPersonCached]
    under the key and tag of a valid id, and its body is the JSON form of
    what the store holds for that id now. *)
Definition coherentEntry (ZId : string → bool) (db : Database) (e : CacheEntry) : Prop :=
  match entry_key e with
  | [personId] =>
      entry_tags e = [personId]
      ∧ ZId personId = true
      ∧ entry_value e = jsonRoundTrip <$> storedPerson db personId
  | _ => False
  end.

#[global] Instance coherentEntry_dec ZId db e : Decision (coherentEntry ZId db e).
Proof. unfold coherentEntry. destruct (entry_key e) as [|? [|? ?]]; apply _. Defined.

Definition coherent (ZId : string → bool) (w : World) : Prop :=
  Forall (coherentEntry ZId (database w)) (cache w).

#[global] Instance coherent_dec ZId w : Decision (coherent ZId w).
Proof. unfold coherent. apply _. Defined.

(** How an operation may move the store and the cache without breaking
    their agreement: it leaves both alone, or it changes the store for one
    person only and revalidates that person's tag. *)
Definition inStep (w w' : World) : Prop :=
  (database w' = database w ∧ cache w' = cache w)
  ∨ ∃ tag,
      cache w' = filter (λ e, tag ∉ entry_tags e) (cache w)
      ∧ ∀ personId, personId ≠ tag →
          storedPerson (database w') personId = storedPerson (database w) personId.

(** The requests a caller can make, and the world each leaves behind. *)
Inductive Request : Type :=
| GetPerson (personId : string)
| GetPersonCached (personId : string)
| GetPeople (environmentId : string)
| CreatePerson (environmentId : string)
| DeletePerson (personId : string)
| GetOrCreatePersonByUserId (userId environmentId : string)
| UpdatePersonAttribute (personId attributeClassId attrValue : string)
| Elapse (seconds : nat).

Definition serve (ZId : string → bool) (genId : nat → string)
    (r : Request) (w : World) : World :=
  match r with
  | GetPerson personId => (getPerson ZId personId w).2
  | GetPersonCached personId => (getPersonCached ZId personId w).2
  | GetPeople environmentId => (getPeople ZId environmentId w).2
  | CreatePerson environmentId => (createPerson ZId genId environmentId w).2
  | DeletePerson personId => (deletePerson ZId personId w).2
  | GetOrCreatePersonByUserId userId environmentId =>
      (getOrCreatePersonByUserId genId userId environmentId w).2
  | UpdatePersonAttribute personId attributeClassId attrValue =>
      (updatePersonAttribute personId attributeClassId attrValue w).2
  | Elapse seconds => elapse seconds w
  end.

Definition serveAll (ZId : string → bool) (genId : nat → string)
    (requests : list Request) (w : World) : World :=
  fold_left (λ w r, serve ZId genId r w) requests w.

(** ** Sample data *)

Module Sample.

Definition lowerOrDigit (c : Ascii.ascii) : bool :=
  let n := Ascii.nat_of_ascii c in
  ((97 <=? n) && (n <=? 122)) || ((48 <=? n) && (n <=? 57)).

Fixpoint allChars (f : Ascii.ascii → bool) (s : string) : bool :=
  match s with
  | EmptyString => true
  | String c rest => f c && allChars f rest
  end.

(** A stand-in for the identifier schema: non-empty, lower-case letters
    and digits only. *)
Definition zid (s : string) : bool :=
  negb (bool_decide (s = "")) && allChars lowerOrDigit s.

(** A stand-in for the id generator. *)
Definition gen (n : nat) : string := "p" +:+ pretty n.

Definition userIdClass : TAttributeClass :=
  {| attributeClass_id := "c1";
     attributeClass_name := "userId";
     attributeClass_archived := false;
     attributeClass_environmentId := "e1" |}.

Definition planClass : TAttributeClass :=
  {| attributeClass_id := "c2";
     attributeClass_name := "plan";
     attributeClass_archived := false;
     attributeClass_environmentId := "e1" |}.

Definition legacyClass : TAttributeClass :=
  {| attributeClass_id := "c3";
     attributeClass_name := "legacy";
     attributeClass_archived := true;
     attributeClass_environmentId := "e1" |}.

Definition alice : PersonRow :=
  {| person_id := "p0";
     person_environmentId := "e1";
     person_createdAt := 10;
     person_updatedAt := 10 |}.

(** Environment e1 holds one person with a plan and a value on an
    archived class; environment e2 is empty. *)
Definition db : Database :=
  {| environments := ["e1"; "e2"];
     persons := [alice];
     attributeClasses := [userIdClass; planClass; legacyClass];
     attributeRows :=
       [ {| attribute_attributeClassId := "c3";
            attribute_personId := "p0";
            attribute_value := "old" |};
         {| attribute_attributeClassId := "c2";
            attribute_personId := "p0";
            attribute_value := "free" |} ];
     idCounter := 1 |}.

Definition world (script : list (option Error)) : World :=
  {| database := db;
     cache := [];
     clock := 1000;
     faults := script;
     storeLog := [];
     revalidated := [] |}.

Definition timeout : Error :=
  PrismaClientKnownRequestError "P2024"
    "Timed out fetching a new connection from the connection pool.".

Definition panic : Error := PrismaClientOtherError "Query engine panicked".

End Sample.

(** * Properties *)

(** ** Lists *)

Section Lists.
Context {A : Type} (P : A → Prop) `{∀ x, Decision (P x)}.

Lemma filter_none (l : list A) : Forall (λ x, ¬ P x) l ↔ filter P l = [].
Proof.
  induction l as [|x l IH]; simpl.
  - split; [reflexivity | constructor].
  - rewrite filter_cons, Forall_cons. case_decide as Hx.
    + split; [tauto | discriminate].
    + rewrite <- IH. tauto.
Qed.

Lemma filter_local (Q : A → Prop) `{∀ x, Decision (Q x)} (l : list A) :
  (∀ x, x ∈ l → (P x ↔ Q x)) → filter P l = filter Q l.
Proof.
  induction l as [|x l IH]; intros Hl; [reflexivity|].
  rewrite !filter_cons.
  assert (Hx : P x ↔ Q x) by (apply Hl; left).
  rewrite IH by (intros y Hy; apply Hl; right; exact Hy).
  repeat case_decide; tauto.
Qed.

Lemma filter_fmap_local (f : A → A) (l : list A) :
  (∀ x, x ∈ l → (P (f x) ↔ P x)) →
  filter P (f <$> l) = f <$> filter P l.
Proof.
  induction l as [|x l IH]; intros Hl; [reflexivity|].
  rewrite fmap_cons, !filter_cons.
  assert (Hx : P (f x) ↔ P x) by (apply Hl; left).
  rewrite IH by (intros y Hy; apply Hl; right; exact Hy).
  repeat case_decide; try tauto; reflexivity.
Qed.

Lemma head_filter_snoc (l : list A) (x : A) :
  filter P l = [] → P x → head (filter P (l ++ [x])) = Some x.
Proof.
  intros Hl Hx. rewrite filter_app, Hl. simpl.
  rewrite filter_cons_True by exact Hx. reflexivity.
Qed.

Lemma head_filter_app_stable (l extra : list A) :
  Forall (λ x, ¬ P x) extra → head (filter P (l ++ extra)) = head (filter P l).
Proof.
  intros Hx. rewrite filter_app. apply filter_none in Hx. rewrite Hx.
  rewrite app_nil_r. reflexivity.
Qed.
End Lists.

(** ** The monad and the store client *)

Lemma validateInputs_pass (schema : string → bool) (input : string) (w : World) :
  schema input = true → validateInputs [(input, schema)] w = (Return (), w).
Proof. intros H. simpl. rewrite H. reflexivity. Qed.

Lemma validateInputs_fail (schema : string → bool) (input : string) (w : World) :
  schema input = false → validateInputs [(input, schema)] w = (Throw ValidationError, w).
Proof. intros H. simpl. rewrite H. reflexivity. Qed.

Lemma roundTrip_fault {A} call (query : Date → Database → Completion A * Database) w error :
  head (faults w) = Some (Some error) →
  roundTrip call query w = (Throw error, called call (database w) w).
Proof. intros H. unfold roundTrip. rewrite H. reflexivity. Qed.

Lemma storeUp_head n w :
  storeUp (S n) w → head (faults w) = None ∨ head (faults w) = Some None.
Proof.
  unfold storeUp. destruct (faults w) as [|f fs]; simpl; [auto|].
  intros H. apply Forall_cons in H as [-> _]. auto.
Qed.

Lemma storeUp_called n call db w : storeUp (S n) w → storeUp n (called call db w).
Proof.
  unfold storeUp. simpl. destruct (faults w) as [|f fs]; simpl.
  - intros _. rewrite take_nil. constructor.
  - intros H. apply Forall_cons in H as [_ H]. exact H.
Qed.

Lemma storeUp_le n m w : n ≤ m → storeUp m w → storeUp n w.
Proof.
  unfold storeUp. intros Hle H.
  replace n with (n `min` m) by lia. rewrite <- take_take.
  apply Forall_take. exact H.
Qed.

Lemma roundTrip_up {A} call (query : Date → Database → Completion A * Database) w :
  storeUp 1 w →
  roundTrip call query w
  = ((query (clock w) (database w)).1,
     called call (query (clock w) (database w)).2 w).
Proof.
  intros H. unfold roundTrip.
  destruct (storeUp_head 0 w H) as [-> | ->]; reflexivity.
Qed.

Lemma roundTrip_log {A} call (query : Date → Database → Completion A * Database) w :
  storeLog (roundTrip call query w).2 = storeLog w ++ [call].
Proof. reflexivity. Qed.

Lemma roundTrip_cache {A} call (query : Date → Database → Completion A * Database) w :
  cache (roundTrip call query w).2 = cache w
  ∧ revalidated (roundTrip call query w).2 = revalidated w.
Proof. split; reflexivity. Qed.

(** ** The shape transformation *)

Lemma setProperty_lookup_same (key v : string) (acc : gmap string string) :
  key ≠ "__proto__" → setProperty key v acc !! key = Some v.
Proof.
  intros Hkey. unfold setProperty. rewrite bool_decide_eq_false_2 by exact Hkey.
  apply lookup_insert_eq.
Qed.

Lemma setProperty_lookup_other (key v k : string) (acc : gmap string string) :
  key ≠ k → setProperty key v acc !! k = acc !! k.
Proof.
  intros Hkey. unfold setProperty. case_bool_decide; [reflexivity|].
  apply lookup_insert_ne. exact Hkey.
Qed.

Lemma setProperty_lookup_proto (key v : string) (acc : gmap string string) :
  setProperty key v acc !! "__proto__" = acc !! "__proto__".
Proof.
  unfold setProperty. case_bool_decide as Hkey; [reflexivity|].
  apply lookup_insert_ne. exact Hkey.
Qed.

Lemma reduced_lookup (l : list AttributeInput) (acc : gmap string string) (k : string) :
  k ≠ "__proto__" →
  reduced l acc !! k
  = match last (filter (λ a, name (attributeClass a) = k) l) with
    | Some a => Some (value a)
    | None => acc !! k
    end.
Proof.
  intros Hproto. unfold reduced.
  revert acc. induction l as [|a l IH]; intros acc; simpl; [reflexivity|].
  rewrite IH. rewrite filter_cons. case_decide as Hk.
  - destruct (filter _ l) as [|b l'] eqn:Hf; simpl.
    + subst k. apply setProperty_lookup_same. exact Hproto.
    + rewrite last_cons. destruct (last l'); reflexivity.
  - destruct (last _); [reflexivity|]. apply setProperty_lookup_other. exact Hk.
Qed.

Lemma reduced_lookup_proto (l : list AttributeInput) (acc : gmap string string) :
  reduced l acc !! "__proto__" = acc !! "__proto__".
Proof.
  unfold reduced. revert acc. induction l as [|a l IH]; intros acc; simpl; [reflexivity|].
  rewrite IH. apply setProperty_lookup_proto.
Qed.

Lemma transformPrismaPerson_lookup (person : TransformPersonInput) (k : string) :
  k ≠ "__proto__" →
  attributes (transformPrismaPerson person) !! k
  = value <$> last (filter (λ a, name (attributeClass a) = k) (input_attributes person)).
Proof.
  intros Hproto. unfold transformPrismaPerson. simpl.
  change (fold_left _ (input_attributes person) ∅)
    with (reduced (input_attributes person) ∅).
  rewrite reduced_lookup by exact Hproto. rewrite lookup_empty.
  destruct (last _); reflexivity.
Qed.

Lemma transformPrismaPerson_lookup_proto (person : TransformPersonInput) :
  attributes (transformPrismaPerson person) !! "__proto__" = None.
Proof.
  unfold transformPrismaPerson. simpl.
  change (fold_left _ (input_attributes person) ∅)
    with (reduced (input_attributes person) ∅).
  rewrite reduced_lookup_proto. apply lookup_empty.
Qed.

(** An entry of the result is the value of the last pair of its name. *)
Lemma transformPrismaPerson_lookup_Some (person : TransformPersonInput) (k v : string) :
  attributes (transformPrismaPerson person) !! k = Some v →
  k ≠ "__proto__"
  ∧ value <$> last (filter (λ a, name (attributeClass a) = k) (input_attributes person))
    = Some v.
Proof.
  intros Hkv. destruct (decide (k = "__proto__")) as [-> | Hproto].
  - rewrite transformPrismaPerson_lookup_proto in Hkv. discriminate.
  - split; [exact Hproto|].
    rewrite <- (transformPrismaPerson_lookup person k Hproto). exact Hkv.
Qed.


(** ** Validation comes first *)

Section Validation.
Variable ZId : string → bool.
Variable genId : nat → string.

Lemma getPerson_malformed personId w :
  ZId personId = false → getPerson ZId personId w = (Throw ValidationError, w).
Proof.
  intros H. unfold getPerson, mbind, M_bind.
  rewrite validateInputs_fail by exact H. reflexivity.
Qed.

Lemma getPeople_malformed environmentId w :
  ZId environmentId = false → getPeople ZId environmentId w = (Throw ValidationError, w).
Proof.
  intros H. unfold getPeople, mbind, M_bind.
  rewrite validateInputs_fail by exact H. reflexivity.
Qed.

Lemma createPerson_malformed environmentId w :
  ZId environmentId = false →
  createPerson ZId genId environmentId w = (Throw ValidationError, w).
Proof.
  intros H. unfold createPerson, mbind, M_bind.
  rewrite validateInputs_fail by exact H. reflexivity.
Qed.

Lemma deletePerson_malformed personId w :
  ZId personId = false → deletePerson ZId personId w = (Throw ValidationError, w).
Proof.
  intros H. unfold deletePerson, mbind, M_bind.
  rewrite validateInputs_fail by exact H. reflexivity.
Qed.

(** The four validated operations, once the input has passed. *)
Lemma getPerson_valid personId w :
  ZId personId = true →
  getPerson ZId personId w
  = match prisma_person_findUnique personId selectPerson w with
    | (Return personPrisma, w') => (Return (transformPrismaPerson <$> personPrisma), w')
    | (Throw error, w') =>
        (Throw (if isPrismaClientKnownRequestError error
                then DatabaseError "Database operation failed" else error), w')
    end.
Proof.
  intros H. unfold getPerson, mbind, M_bind, tryCatch.
  rewrite validateInputs_pass by exact H.
  destruct (prisma_person_findUnique personId selectPerson w) as [[[raw|]|error] w'];
    try reflexivity.
  destruct (isPrismaClientKnownRequestError error); reflexivity.
Qed.

Lemma omap_Some_fmap {A B} (f : A → B) (l : list A) :
  omap (λ o : option B, o) ((λ x, Some (f x)) <$> l) = f <$> l.
Proof. induction l as [|x l IH]; simpl; [reflexivity|]. f_equal. exact IH. Qed.

Lemma getPeople_valid environmentId w :
  ZId environmentId = true →
  getPeople ZId environmentId w
  = match prisma_person_findMany environmentId selectPerson w with
    | (Return (Some personsPrisma), w') =>
        (Return (transformPrismaPerson <$> personsPrisma), w')
    | (Return None, w') => (Throw (ResourceNotFoundError "Persons" "All Persons"), w')
    | (Throw error, w') =>
        (Throw (if isPrismaClientKnownRequestError error
                then DatabaseError "Database operation failed" else error), w')
    end.
Proof.
  intros H. unfold getPeople, mbind, M_bind, tryCatch.
  rewrite validateInputs_pass by exact H.
  destruct (prisma_person_findMany environmentId selectPerson w) as [[[raw|]|error] w'];
    try reflexivity.
  - unfold mret, M_ret. rewrite omap_Some_fmap. reflexivity.
  - destruct (isPrismaClientKnownRequestError error); reflexivity.
Qed.

Lemma createPerson_valid environmentId w :
  ZId environmentId = true →
  createPerson ZId genId environmentId w
  = match prisma_person_create genId environmentId [] selectPerson w with
    | (Return personPrisma, w') =>
        (Return (transformPrismaPerson personPrisma),
         (revalidateTag (input_id personPrisma) w').2)
    | (Throw error, w') =>
        (Throw (match error with
                | PrismaClientKnownRequestError _ message => DatabaseError message
                | _ => error
                end), w')
    end.
Proof.
  intros H. unfold createPerson, mbind, M_bind, tryCatch.
  rewrite validateInputs_pass by exact H.
  destruct (prisma_person_create genId environmentId [] selectPerson w) as [[raw|error] w'];
    try reflexivity.
  destruct error; reflexivity.
Qed.

Lemma deletePerson_valid personId w :
  ZId personId = true →
  deletePerson ZId personId w
  = match prisma_person_delete personId w with
    | (Return _, w') => (Return (), (revalidateTag personId w').2)
    | (Throw error, w') =>
        (Throw (if isPrismaClientKnownRequestError error
                then DatabaseError "Database operation failed" else error), w')
    end.
Proof.
  intros H. unfold deletePerson, mbind, M_bind, tryCatch.
  rewrite validateInputs_pass by exact H.
  destruct (prisma_person_delete personId w) as [[row|error] w']; try reflexivity.
  destruct (isPrismaClientKnownRequestError error); reflexivity.
Qed.

Lemma updatePersonAttribute_unfold personId attributeClassId attrValue w :
  updatePersonAttribute personId attributeClassId attrValue w
  = match prisma_attribute_upsert attributeClassId personId attrValue w with
    | (Return _, w') => (Return (), (revalidateTag personId w').2)
    | (Throw error, w') => (Throw error, w')
    end.
Proof.
  unfold updatePersonAttribute, mbind, M_bind.
  destruct (prisma_attribute_upsert attributeClassId personId attrValue w) as [[row|error] w'];
    reflexivity.
Qed.

(** C1, as the code has it.  For a malformed identifier, [getPerson] and
    [deletePerson] fail with ValidationError and leave the world as it
    was: no call reaches the store or the cache.  [updatePersonAttribute]
    has no format check: whatever the identifier, its first step is the
    upsert in the store. *)
Theorem malformed_id_get_delete_fail_before_store (personId : string) (w : World) :
  ZId personId = false →
  getPerson ZId personId w = (Throw ValidationError, w)
  ∧ deletePerson ZId personId w = (Throw ValidationError, w)
  ∧ storeLog (getPerson ZId personId w).2 = storeLog w
  ∧ storeLog (deletePerson ZId personId w).2 = storeLog w
  ∧ (∀ attributeClassId attrValue,
       storeLog (updatePersonAttribute personId attributeClassId attrValue w).2
       = storeLog w ++ [AttributeUpsert attributeClassId personId attrValue]).
Proof.
  intros H.
  rewrite getPerson_malformed, deletePerson_malformed by exact H.
  repeat split.
  intros attributeClassId attrValue. rewrite updatePersonAttribute_unfold.
  unfold prisma_attribute_upsert.
  pose proof (roundTrip_log (AttributeUpsert attributeClassId personId attrValue)
                (λ _, Query.attribute_upsert attributeClassId personId attrValue) w) as Hlog.
  destruct (roundTrip _ _ w) as [[row|error] w']; simpl in *; exact Hlog.
Qed.

End Validation.

(** ** Errors of the store *)

Section StoreErrors.
Variable ZId : string → bool.
Variable genId : nat → string.

(** C4.  Absence of data is not an error.  With a valid id and a store
    that answers, [getPerson] on an id that matches no record returns
    null, and [getPeople] on an environment without persons returns the
    empty list. *)
Theorem absence_is_not_an_error (personId environmentId : string) (w : World) :
  storeUp 1 w →
  (ZId personId = true →
   Query.findPerson (database w) personId = None →
   (getPerson ZId personId w).1 = Return None)
  ∧ (ZId environmentId = true →
     Forall (λ p, person_environmentId p ≠ environmentId) (persons (database w)) →
     (getPeople ZId environmentId w).1 = Return []).
Proof.
  intros Hup. split.
  - intros Hvalid Hnone. rewrite getPerson_valid by exact Hvalid.
    unfold prisma_person_findUnique. rewrite roundTrip_up by exact Hup.
    simpl. rewrite Hnone. reflexivity.
  - intros Hvalid Hempty. rewrite getPeople_valid by exact Hvalid.
    unfold prisma_person_findMany. rewrite roundTrip_up by exact Hup.
    simpl.
    apply (filter_none (λ p, person_environmentId p = environmentId)) in Hempty.
    rewrite Hempty. reflexivity.
Qed.

Lemma rewraps_intro {A B} (store : M A) (operation : M B)
    (wrap : string → string → Error) (w : World) (f : Error → Error) :
  (∀ e, (store w).1 = Throw e → (operation w).1 = Throw (f e)) →
  (∀ code message, f (PrismaClientKnownRequestError code message) = wrap code message) →
  (∀ e, isPrismaClientKnownRequestError e = false → f e = e) →
  rewraps store operation wrap w.
Proof.
  intros Hop Hknown Hother. split.
  - intros code message H. rewrite (Hop _ H), Hknown. reflexivity.
  - intros error Hclass H. rewrite (Hop _ H), Hother by exact Hclass. reflexivity.
Qed.

(** C2.  In [getPerson], [getPeople] and [deletePerson] a known request
    error of the store comes out as DatabaseError "Database operation
    failed"; in [createPerson] it comes out as a DatabaseError with the
    message of the original error; in all four, every other error comes
    out unchanged. *)
Theorem known_store_errors_are_rewrapped (input : string) (w : World) :
  ZId input = true →
  rewraps (prisma_person_findUnique input selectPerson) (getPerson ZId input)
          (λ _ _, DatabaseError "Database operation failed") w
  ∧ rewraps (prisma_person_findMany input selectPerson) (getPeople ZId input)
            (λ _ _, DatabaseError "Database operation failed") w
  ∧ rewraps (prisma_person_delete input) (deletePerson ZId input)
            (λ _ _, DatabaseError "Database operation failed") w
  ∧ rewraps (prisma_person_create genId input [] selectPerson)
            (createPerson ZId genId input)
            (λ _ message, DatabaseError message) w.
Proof.
  intros Hvalid. split; [|split; [|split]].
  - apply (rewraps_intro _ _ _ _
             (λ e, if isPrismaClientKnownRequestError e
                   then DatabaseError "Database operation failed" else e)).
    + intros e He. rewrite getPerson_valid by exact Hvalid.
      destruct (prisma_person_findUnique _ _ w) as [[a|e'] w']; simpl in *;
        [discriminate | injection He as ->; reflexivity].
    + reflexivity.
    + intros e ->. reflexivity.
  - apply (rewraps_intro _ _ _ _
             (λ e, if isPrismaClientKnownRequestError e
                   then DatabaseError "Database operation failed" else e)).
    + intros e He. rewrite getPeople_valid by exact Hvalid.
      destruct (prisma_person_findMany _ _ w) as [[a|e'] w']; simpl in *;
        [discriminate | injection He as ->; reflexivity].
    + reflexivity.
    + intros e ->. reflexivity.
  - apply (rewraps_intro _ _ _ _
             (λ e, if isPrismaClientKnownRequestError e
                   then DatabaseError "Database operation failed" else e)).
    + intros e He. rewrite deletePerson_valid by exact Hvalid.
      destruct (prisma_person_delete _ w) as [[a|e'] w']; simpl in *;
        [discriminate | injection He as ->; reflexivity].
    + reflexivity.
    + intros e ->. reflexivity.
  - apply (rewraps_intro _ _ _ _
             (λ e, match e with
                   | PrismaClientKnownRequestError _ message => DatabaseError message
                   | _ => e
                   end)).
    + intros e He. rewrite createPerson_valid by exact Hvalid.
      destruct (prisma_person_create _ _ _ _ w) as [[a|e'] w']; simpl in *;
        [discriminate | injection He as ->; reflexivity].
    + reflexivity.
    + intros e He. destruct e; try reflexivity. discriminate.
Qed.

Lemma Throw_retype {A B} (e e' : Error) : @Throw A e = Throw e' → @Throw B e = Throw e'.
Proof. intros [= ->]. reflexivity. Qed.

Lemma getOrCreatePersonByUserId_unfold userId environmentId w :
  getOrCreatePersonByUserId genId userId environmentId w
  = match prisma_person_findFirst environmentId "userId" userId selectPerson w with
    | (Throw error, w1) => (Throw error, w1)
    | (Return (Some personPrisma), w1) => (Return (transformPrismaPerson personPrisma), w1)
    | (Return None, w1) =>
        match getAttributeClassByName environmentId "userId" w1 with
        | (Throw error, w2) => (Throw error, w2)
        | (Return None, w2) =>
            (Throw (JsError "Attribute class not found for the given environmentId"), w2)
        | (Return (Some userIdAttributeClass), w2) =>
            match prisma_person_create genId environmentId
                    [(attributeClass_id userIdAttributeClass, userId)] selectPerson w2 with
            | (Throw error, w3) => (Throw error, w3)
            | (Return personPrisma, w3) =>
                (Return (transformPrismaPerson personPrisma),
                 (revalidateTag (input_id personPrisma) w3).2)
            end
        end
    end.
Proof.
  unfold getOrCreatePersonByUserId, mbind, M_bind.
  destruct (prisma_person_findFirst _ _ _ _ w) as [[[raw|]|error] w1]; try reflexivity.
  destruct (getAttributeClassByName _ _ w1) as [[[cls|]|error] w2]; reflexivity.
Qed.

(** C9.  [updatePersonAttribute] and [getOrCreatePersonByUserId] have no
    [catch]: the error of a store call is the error of the operation,
    whatever its class.  [updatePersonAttribute] throws exactly what the
    upsert throws; [getOrCreatePersonByUserId] throws exactly what one of
    its three store calls throws, or the error for the missing userId
    attribute class. *)
Theorem store_errors_propagate_unchanged :
  (∀ personId attributeClassId attrValue w error,
     (updatePersonAttribute personId attributeClassId attrValue w).1 = Throw error
     ↔ (prisma_attribute_upsert attributeClassId personId attrValue w).1 = Throw error)
  ∧ (∀ userId environmentId w error,
       (getOrCreatePersonByUserId genId userId environmentId w).1 = Throw error
       ↔ (prisma_person_findFirst environmentId "userId" userId selectPerson w).1
           = Throw error
         ∨ ∃ w1,
             prisma_person_findFirst environmentId "userId" userId selectPerson w
               = (Return None, w1)
             ∧ ((getAttributeClassByName environmentId "userId" w1).1 = Throw error
                ∨ ((getAttributeClassByName environmentId "userId" w1).1 = Return None
                   ∧ error = JsError "Attribute class not found for the given environmentId")
                ∨ ∃ userIdAttributeClass w2,
                    getAttributeClassByName environmentId "userId" w1
                      = (Return (Some userIdAttributeClass), w2)
                    ∧ (prisma_person_create genId environmentId
                         [(attributeClass_id userIdAttributeClass, userId)]
                         selectPerson w2).1 = Throw error)).
Proof.
  split.
  - intros personId attributeClassId attrValue w error.
    rewrite updatePersonAttribute_unfold.
    destruct (prisma_attribute_upsert _ _ _ w) as [[row|e] w']; simpl; split;
      intros H; try discriminate; injection H as ->; reflexivity.
  - intros userId environmentId w error.
    rewrite getOrCreatePersonByUserId_unfold.
    destruct (prisma_person_findFirst _ _ _ _ w) as [[[raw|]|e1] w1]; cbn [fst].
    + split; [discriminate|]. intros [H | (w1' & H & _)]; discriminate.
    + destruct (getAttributeClassByName _ _ w1) as [[[cls|]|e2] w2] eqn:Hlookup; cbn [fst].
      * destruct (prisma_person_create _ _ _ _ w2) as [[raw|e3] w3] eqn:Hcreate; cbn [fst].
        -- split; [discriminate|].
           intros [H | (w1' & H & Hrest)]; [discriminate|].
           injection H as <-. rewrite Hlookup in Hrest. cbn [fst] in Hrest.
           destruct Hrest as [H | [[H _] | (cls' & w2' & H & Hc)]]; try discriminate.
           injection H as <- <-. rewrite Hcreate in Hc. discriminate.
        -- split.
           ++ intros H. right. exists w1. split; [reflexivity|].
              right. right. exists cls, w2. rewrite Hlookup, Hcreate.
              split; [reflexivity|]. cbn [fst]. eapply Throw_retype, H.
           ++ intros [H | (w1' & H & Hrest)]; [discriminate|].
              injection H as <-. rewrite Hlookup in Hrest. cbn [fst] in Hrest.
              destruct Hrest as [H | [[H _] | (cls' & w2' & H & Hc)]]; try discriminate.
              injection H as <- <-. rewrite Hcreate in Hc. eapply Throw_retype, Hc.
      * split.
        -- intros H. right. exists w1. split; [reflexivity|].
           rewrite Hlookup. cbn [fst]. right. left. split; [reflexivity|]. congruence.
        -- intros [H | (w1' & H & Hrest)]; [discriminate|].
           injection H as <-. rewrite Hlookup in Hrest. cbn [fst] in Hrest.
           destruct Hrest as [H | [[_ ->] | (cls' & w2' & H & _)]]; try discriminate.
           reflexivity.
      * split.
        -- intros H. right. exists w1. split; [reflexivity|].
           rewrite Hlookup. cbn [fst]. left. eapply Throw_retype, H.
        -- intros [H | (w1' & H & Hrest)]; [discriminate|].
           injection H as <-. rewrite Hlookup in Hrest. cbn [fst] in Hrest.
           destruct Hrest as [H | [[H _] | (cls' & w2' & H & _)]]; try discriminate.
           eapply Throw_retype, H.
    + split; [intros H; left; eapply Throw_retype, H|].
      intros [H | (w1' & H & _)]; [eapply Throw_retype, H | discriminate].
Qed.

(** C10.  In [deletePerson] and [updatePersonAttribute] the tag of the
    person is revalidated only after the store call has succeeded: when
    the store call throws, the operation throws and the cache is left as
    it was; when the operation returns, the store call had returned and
    the tag was revalidated once. *)
Theorem invalidation_only_after_store_success
    (personId attributeClassId attrValue : string) (w : World) :
  (∀ error,
     ZId personId = true →
     (prisma_person_delete personId w).1 = Throw error →
     (∃ error', (deletePerson ZId personId w).1 = Throw error')
     ∧ cacheUntouched w (deletePerson ZId personId w).2)
  ∧ (∀ error,
       (prisma_attribute_upsert attributeClassId personId attrValue w).1 = Throw error →
       (updatePersonAttribute personId attributeClassId attrValue w).1 = Throw error
       ∧ cacheUntouched w (updatePersonAttribute personId attributeClassId attrValue w).2)
  ∧ ((deletePerson ZId personId w).1 = Return () →
     (∃ row, (prisma_person_delete personId w).1 = Return row)
     ∧ invalidated personId w (deletePerson ZId personId w).2)
  ∧ ((updatePersonAttribute personId attributeClassId attrValue w).1 = Return () →
     (∃ row, (prisma_attribute_upsert attributeClassId personId attrValue w).1 = Return row)
     ∧ invalidated personId w (updatePersonAttribute personId attributeClassId attrValue w).2).
Proof.
  unfold cacheUntouched, invalidated.
  pose proof (roundTrip_cache (PersonDelete personId)
                (λ _, Query.person_delete personId) w) as [Hc1 Hr1].
  pose proof (roundTrip_cache (AttributeUpsert attributeClassId personId attrValue)
                (λ _, Query.attribute_upsert attributeClassId personId attrValue) w)
    as [Hc2 Hr2].
  fold (prisma_person_delete personId) in Hc1, Hr1.
  fold (prisma_attribute_upsert attributeClassId personId attrValue) in Hc2, Hr2.
  split; [|split; [|split]].
  - intros error Hvalid Hthrow. rewrite deletePerson_valid by exact Hvalid.
    destruct (prisma_person_delete personId w) as [[row|e] w']; simpl in *;
      [discriminate|]. eauto.
  - intros error Hthrow. rewrite updatePersonAttribute_unfold.
    destruct (prisma_attribute_upsert _ _ _ w) as [[row|e] w']; simpl in *;
      [discriminate|]. split; [eapply Throw_retype, Hthrow | auto].
  - intros Hret. destruct (ZId personId) eqn:Hvalid.
    + rewrite deletePerson_valid in Hret |- * by exact Hvalid.
      destruct (prisma_person_delete personId w) as [[row|e] w']; simpl in *;
        [|discriminate]. split; [eauto|]. rewrite Hc1, Hr1. split; reflexivity.
    + rewrite deletePerson_malformed in Hret by exact Hvalid. discriminate.
  - intros Hret. rewrite updatePersonAttribute_unfold in Hret |- *.
    destruct (prisma_attribute_upsert _ _ _ w) as [[row|e] w']; simpl in *;
      [|discriminate]. split; [eauto|]. rewrite Hc2, Hr2. split; reflexivity.
Qed.

End StoreErrors.

(** ** What the selection lets through *)

Lemma roundTrip_Return {A} call (query : Date → Database → Completion A * Database) w a w' :
  roundTrip call query w = (Return a, w') →
  query (clock w) (database w) = (Return a, database w')
  ∧ w' = called call (database w') w.
Proof.
  unfold roundTrip. intros H.
  destruct (head (faults w)) as [[error|]|]; simpl in H.
  - discriminate.
  - destruct (query (clock w) (database w)) as [r db']. simpl in H.
    injection H as -> <-. split; reflexivity.
  - destruct (query (clock w) (database w)) as [r db']. simpl in H.
    injection H as -> <-. split; reflexivity.
Qed.

Lemma findPerson_Some db personId p :
  Query.findPerson db personId = Some p → p ∈ persons db ∧ person_id p = personId.
Proof.
  unfold Query.findPerson. intros H.
  assert (Hin : p ∈ filter (λ q, person_id q = personId) (persons db)).
  { destruct (filter _ (persons db)); [discriminate|]. injection H as ->. left. }
  apply list_elem_of_filter in Hin. tauto.
Qed.

Lemma selectAttribute_Some db row a :
  Query.selectAttribute selectPerson db row = Some a →
  ∃ cls,
    Query.findClass db (attribute_attributeClassId row) = Some cls
    ∧ attributeClass_archived cls = false
    ∧ a = {| value := attribute_value row;
             attributeClass := {| name := attributeClass_name cls |} |}.
Proof.
  unfold Query.selectAttribute. simpl.
  destruct (Query.findClass db _) as [cls|]; [|discriminate].
  case_bool_decide as Harch; [|discriminate].
  intros [= <-]. exists cls. auto.
Qed.

Lemma applySelect_onlyLive db p :
  onlyLiveAttributes db (transformPrismaPerson (Query.applySelect selectPerson db p)).
Proof.
  intros k v Hkv.
  apply transformPrismaPerson_lookup_Some in Hkv as [_ Hkv]. simpl in Hkv.
  destruct (last _) as [a|] eqn:Hlast; [|discriminate]. injection Hkv as <-.
  apply last_Some in Hlast as [l' Hlast].
  assert (Hin : a ∈ filter (λ a, name (attributeClass a) = k)
                      (Query.selectAttributes selectPerson db (person_id p))).
  { rewrite Hlast. apply elem_of_app. right. left. }
  apply list_elem_of_filter in Hin as [Hname Hin].
  unfold Query.selectAttributes in Hin.
  apply list_elem_of_omap in Hin as (row & Hrow & Hsel).
  apply list_elem_of_filter in Hrow as [Hpid Hrow].
  apply selectAttribute_Some in Hsel as (cls & Hcls & Harch & ->).
  exists row, cls. simpl. repeat split; auto.
Qed.

Section Selection.
Variable ZId : string → bool.

(** C5.  A person returned by [getPerson] or [getPeople] has no entry in
    [attributes] for an archived class: every entry comes from a row of
    that person whose class is not archived, and a name that only
    archived classes carry among the person's rows is absent, though the
    rows exist. *)
Theorem archived_classes_never_appear (w : World) :
  (∀ personId person,
     (getPerson ZId personId w).1 = Return (Some person) →
     onlyLiveAttributes (database w) person
     ∧ ∀ k,
         (∀ row cls,
            row ∈ attributeRows (database w) →
            attribute_personId row = personId →
            Query.findClass (database w) (attribute_attributeClassId row) = Some cls →
            attributeClass_name cls = k →
            attributeClass_archived cls = true) →
         attributes person !! k = None)
  ∧ (∀ environmentId people,
       (getPeople ZId environmentId w).1 = Return people →
       Forall (onlyLiveAttributes (database w)) people).
Proof.
  split.
  - intros personId person Hget.
    destruct (ZId personId) eqn:Hvalid;
      [|rewrite getPerson_malformed in Hget by exact Hvalid; discriminate].
    rewrite getPerson_valid in Hget by exact Hvalid.
    destruct (prisma_person_findUnique personId selectPerson w) as [[raw|e] w'] eqn:Hcall;
      [|discriminate].
    apply roundTrip_Return in Hcall as [Hquery _].
    unfold Query.person_findUnique in Hquery. injection Hquery as Hraw _.
    simpl in Hget. injection Hget as Hget. subst raw.
    destruct (Query.findPerson (database w) personId) as [p|] eqn:Hp; [|discriminate].
    simpl in Hget. injection Hget as <-.
    pose proof (applySelect_onlyLive (database w) p) as Hlive.
    split; [exact Hlive|].
    intros k Harchived.
    destruct (attributes _ !! k) as [v|] eqn:Hkv; [|reflexivity].
    apply Hlive in Hkv as (row & cls & Hrow & Hpid & _ & Hcls & Hname & Hfalse).
    apply findPerson_Some in Hp as [_ Hp]. simpl in Hpid. rewrite Hp in Hpid.
    rewrite (Harchived row cls Hrow Hpid Hcls Hname) in Hfalse. discriminate.
  - intros environmentId people Hlist.
    destruct (ZId environmentId) eqn:Hvalid;
      [|rewrite getPeople_malformed in Hlist by exact Hvalid; discriminate].
    rewrite getPeople_valid in Hlist by exact Hvalid.
    destruct (prisma_person_findMany environmentId selectPerson w) as [[[raw|]|e] w'] eqn:Hcall;
      try discriminate.
    apply roundTrip_Return in Hcall as [Hquery _].
    unfold Query.person_findMany in Hquery. injection Hquery as Hraw _.
    simpl in Hlist. injection Hlist as <-. subst raw.
    rewrite <- list_fmap_compose. apply Forall_fmap, Forall_forall.
    intros p _. apply applySelect_onlyLive.
Qed.

End Selection.

(** ** The upsert *)

Section Upsert.



Lemma overwrite_keyed c p v r : Query.keyed c p r → overwrite c p v r = newRow c p v.
Proof.
  intros Hk. unfold overwrite. rewrite bool_decide_true by exact Hk.
  destruct Hk as [<- <-]. reflexivity.
Qed.

Lemma overwrite_other c p v r : ¬ Query.keyed c p r → overwrite c p v r = r.
Proof. intros Hk. unfold overwrite. rewrite bool_decide_false by exact Hk. reflexivity. Qed.



Lemma filter_other_overwrite (P : AttributeRow → Prop) `{∀ r, Decision (P r)} c p v
    (rows : list AttributeRow) :
  (∀ r, P r → ¬ Query.keyed c p r) →
  ¬ P (newRow c p v) →
  filter P (overwrite c p v <$> rows) = filter P rows.
Proof.
  intros Hother Hnew. induction rows as [|r rows IH]; [reflexivity|].
  rewrite fmap_cons, !filter_cons. destruct (decide (Query.keyed c p r)) as [Hk|Hk].
  - rewrite (overwrite_keyed c p v r Hk).
    rewrite decide_False by exact Hnew.
    rewrite decide_False by (intros HP; exact (Hother r HP Hk)). exact IH.
  - rewrite (overwrite_other c p v r Hk), IH. reflexivity.
Qed.




Lemma findClass_same db db' c :
  attributeClasses db' = attributeClasses db → Query.findClass db' c = Query.findClass db c.
Proof. unfold Query.findClass. intros ->. reflexivity. Qed.

Lemma findPerson_same db db' p :
  persons db' = persons db → Query.findPerson db' p = Query.findPerson db p.
Proof. unfold Query.findPerson. intros ->. reflexivity. Qed.

Lemma selectAttribute_same select db db' r :
  attributeClasses db' = attributeClasses db →
  Query.selectAttribute select db' r = Query.selectAttribute select db r.
Proof.
  intros H. unfold Query.selectAttribute. rewrite (findClass_same db db' _ H). reflexivity.
Qed.

Lemma omap_cons {A B} (f : A → option B) (x : A) (l : list A) :
  omap f (x :: l) = match f x with Some y => y :: omap f l | None => omap f l end.
Proof. reflexivity. Qed.


End Upsert.


Section LastWriteWins.
Variable ZId : string → bool.


End LastWriteWins.

(** ** Find or create *)

Lemma head_filter_NoDup {A B} `{EqDecision B} (f : A → B) (l : list A) (x : A) :
  NoDup (f <$> l) → x ∈ l → head (filter (λ y, f y = f x) l) = Some x.
Proof.
  induction l as [|y l IH]; intros Hnodup Hx; [inversion Hx|].
  rewrite fmap_cons in Hnodup. apply NoDup_cons in Hnodup as [Hy Hnodup].
  rewrite filter_cons. apply elem_of_cons in Hx as [<- | Hx].
  - rewrite decide_True by reflexivity. reflexivity.
  - rewrite decide_False.
    + apply IH; assumption.
    + intros Heq. apply Hy. rewrite Heq. apply list_elem_of_fmap_2. exact Hx.
Qed.

Lemma findClass_member db cls :
  NoDup (attributeClass_id <$> attributeClasses db) →
  cls ∈ attributeClasses db →
  Query.findClass db (attributeClass_id cls) = Some cls.
Proof. intros Hnodup Hcls. unfold Query.findClass. apply head_filter_NoDup; assumption. Qed.

Lemma head_filter_elem {A} (P : A → Prop) `{∀ x, Decision (P x)} (l : list A) (x : A) :
  head (filter P l) = Some x → P x ∧ x ∈ l.
Proof.
  intros Hhead. assert (Hin : x ∈ filter P l).
  { destruct (filter P l); [discriminate|]. injection Hhead as ->. left. }
  apply list_elem_of_filter in Hin. exact Hin.
Qed.

Lemma findPerson_None db personId p :
  Query.findPerson db personId = None → p ∈ persons db → person_id p ≠ personId.
Proof.
  unfold Query.findPerson. intros Hnone Hp Hid.
  apply head_None in Hnone.
  exact (filter_nil_not_elem_of _ _ p Hnone Hid Hp).
Qed.

Lemma person_create_spec genId today environmentId attrs select db :
  environmentId ∈ environments db →
  Forall (λ a, is_Some (Query.findClass db a.1)) attrs →
  Query.findPerson db (genId (idCounter db)) = None →
  Query.person_create genId today environmentId attrs select db
  = (Return (Query.applySelect select (created genId today environmentId attrs db)
               (createdRow genId today environmentId db)),
     created genId today environmentId attrs db).
Proof.
  intros Henv Hattrs Hfresh. unfold Query.person_create.
  rewrite bool_decide_true by auto.
  rewrite bool_decide_false by (rewrite Hfresh; apply is_Some_None).
  reflexivity.
Qed.

Lemma someAttribute_created genId today environmentId attrs db className attrValue p :
  person_id p ≠ genId (idCounter db) →
  Query.someAttribute (created genId today environmentId attrs db) className attrValue p
  ↔ Query.someAttribute db className attrValue p.
Proof.
  intros Hid. unfold Query.someAttribute. simpl. rewrite Exists_app.
  split; [|auto]. intros [H | H]; [exact H|]. exfalso.
  apply Exists_exists in H as (r & Hr & Hpid & _).
  apply list_elem_of_fmap in Hr as (a & -> & _). simpl in Hpid. congruence.
Qed.

Lemma storeUp_revalidateTag n tag w : storeUp n w → storeUp n (revalidateTag tag w).2.
Proof. intros H. exact H. Qed.

Lemma person_findFirst_eq environmentId userId db :
  Query.person_findFirst environmentId "userId" userId selectPerson db
  = (Return (Query.applySelect selectPerson db
               <$> head (filter (ownsUserId db environmentId userId) (persons db))),
     db).
Proof. reflexivity. Qed.

(** After the creation, the lookup finds the new person and nobody else. *)
Lemma created_findFirst genId today environmentId userId cls db :
  NoDup (attributeClass_id <$> attributeClasses db) →
  cls ∈ attributeClasses db →
  attributeClass_name cls = "userId" →
  Query.findPerson db (genId (idCounter db)) = None →
  head (filter (ownsUserId db environmentId userId) (persons db)) = None →
  let db' := created genId today environmentId [(attributeClass_id cls, userId)] db in
  head (filter (ownsUserId db' environmentId userId) (persons db'))
  = Some (createdRow genId today environmentId db).
Proof.
  intros Hnodup Hcls Hname Hfresh Hnone db'. subst db'. simpl.
  apply head_filter_snoc.
  - apply head_None in Hnone. rewrite <- Hnone. apply filter_local.
    intros p Hp. unfold ownsUserId. rewrite someAttribute_created; [tauto|].
    apply (findPerson_None _ _ _ Hfresh Hp).
  - split; [reflexivity|]. unfold Query.someAttribute. simpl.
    apply Exists_app. right. apply Exists_cons. left. simpl.
    split; [reflexivity|]. split; [reflexivity|].
    replace (Query.findClass _ (attributeClass_id cls)) with (Some cls).
    + simpl. rewrite Hname. reflexivity.
    + symmetry. rewrite <- (findClass_member db cls Hnodup Hcls). reflexivity.
Qed.

(** The new person's selected attributes are the one seeded attribute. *)
Lemma created_selectAttributes genId today environmentId userId cls db :
  wellFormed db →
  cls ∈ attributeClasses db →
  Query.findPerson db (genId (idCounter db)) = None →
  Query.selectAttributes selectPerson
    (created genId today environmentId [(attributeClass_id cls, userId)] db)
    (genId (idCounter db))
  = if attributeClass_archived cls then []
    else [ {| value := userId; attributeClass := {| name := attributeClass_name cls |} |} ].
Proof.
  intros (_ & Hnodup & _ & _ & _ & Hfk) Hcls Hfresh.
  unfold Query.selectAttributes. simpl. rewrite filter_app.
  assert (Hnone : filter (λ r, attribute_personId r = genId (idCounter db)) (attributeRows db)
                  = []).
  { apply filter_none, Forall_forall. intros r Hr Hpid.
    rewrite Forall_forall in Hfk. destruct (Hfk r Hr) as [_ [p Hp]].
    rewrite Hpid, Hfresh in Hp. discriminate. }
  rewrite Hnone. simpl. rewrite filter_cons_True by reflexivity.
  rewrite filter_nil, omap_cons. unfold Query.selectAttribute. simpl.
  replace (Query.findClass _ (attributeClass_id cls)) with (Some cls).
  - destruct (attributeClass_archived cls); reflexivity.
  - symmetry. rewrite <- (findClass_member db cls Hnodup Hcls). reflexivity.
Qed.

Section FindOrCreate.
Variable genId : nat → string.

Lemma getOrCreatePersonByUserId_found userId environmentId w q :
  storeUp 1 w →
  head (filter (ownsUserId (database w) environmentId userId) (persons (database w)))
    = Some q →
  getOrCreatePersonByUserId genId userId environmentId w
  = (Return (transformPrismaPerson (Query.applySelect selectPerson (database w) q)),
     called (PersonFindFirst environmentId "userId" userId) (database w) w).
Proof.
  intros Hup Hq. rewrite getOrCreatePersonByUserId_unfold.
  unfold prisma_person_findFirst. rewrite roundTrip_up by exact Hup.
  rewrite person_findFirst_eq, Hq. reflexivity.
Qed.

Lemma getOrCreatePersonByUserId_created userId environmentId cls w :
  storeUp 3 w →
  wellFormed (database w) →
  (Query.attributeClass_findFirst environmentId "userId" (database w)).1
    = Return (Some cls) →
  Query.findPerson (database w) (genId (idCounter (database w))) = None →
  head (filter (ownsUserId (database w) environmentId userId) (persons (database w)))
    = None →
  let attrs := [(attributeClass_id cls, userId)] in
  let db' := created genId (clock w) environmentId attrs (database w) in
  getOrCreatePersonByUserId genId userId environmentId w
  = (Return (transformPrismaPerson
               (Query.applySelect selectPerson db'
                  (createdRow genId (clock w) environmentId (database w)))),
     (revalidateTag (genId (idCounter (database w)))
        (called (PersonCreate environmentId attrs) db'
           (called (AttributeClassFindFirst environmentId "userId") (database w)
              (called (PersonFindFirst environmentId "userId" userId) (database w) w)))).2).
Proof.
  intros Hup Hwf Hlookup Hfresh Hnone attrs db'.
  rewrite getOrCreatePersonByUserId_unfold.
  unfold prisma_person_findFirst.
  rewrite roundTrip_up by (eapply storeUp_le; [|exact Hup]; lia).
  rewrite person_findFirst_eq, Hnone. cbn [fst snd fmap option_fmap option_map].
  unfold getAttributeClassByName, prisma_attributeClass_findFirst.
  rewrite roundTrip_up
    by (eapply storeUp_le; [|apply storeUp_called; exact Hup]; lia).
  cbn [database called clock].
  destruct (Query.attributeClass_findFirst environmentId "userId" (database w))
    as [r db1] eqn:Hquery.
  assert (db1 = database w) by (unfold Query.attributeClass_findFirst in Hquery; congruence).
  subst db1. simpl in Hlookup. subst r. cbn [fst snd].
  unfold prisma_person_create.
  rewrite roundTrip_up by (do 2 apply storeUp_called; exact Hup).
  cbn [database called clock].
  unfold Query.attributeClass_findFirst in Hquery. injection Hquery as Hhead.
  apply head_filter_elem in Hhead as [[Henv Hname] Hcls].
  destruct Hwf as (_ & Hnodup & _ & _ & Hfkc & _).
  rewrite person_create_spec.
  - reflexivity.
  - rewrite Forall_forall in Hfkc. rewrite <- Henv. apply Hfkc. exact Hcls.
  - apply Forall_singleton. simpl.
    rewrite (findClass_member _ _ Hnodup Hcls). eauto.
  - exact Hfresh.
Qed.

End FindOrCreate.

Section FindOrCreateTwice.
Variable genId : nat → string.

(** C8.  In an environment where the userId attribute class is on
    record, against a store that answers, keeps its constraints and can
    hand out its next id, two calls of [getOrCreatePersonByUserId] in a
    row with the same arguments return the same person.  The second call
    only looks the person up: it leaves the database as it was.  When
    nobody owned the userId before, the first call adds one person with
    one attribute row (userId class, value), and returns it with
    attributes = {userId: value} if the class is not archived; otherwise
    the first call changes nothing in the database. *)
Theorem getOrCreatePersonByUserId_twice_same_person
    (userId environmentId : string) (cls : TAttributeClass) (w : World) :
  storeUp 4 w →
  wellFormed (database w) →
  (Query.attributeClass_findFirst environmentId "userId" (database w)).1
    = Return (Some cls) →
  Query.findPerson (database w) (genId (idCounter (database w))) = None →
  ∃ person w1 w2,
    getOrCreatePersonByUserId genId userId environmentId w = (Return person, w1)
    ∧ getOrCreatePersonByUserId genId userId environmentId w1 = (Return person, w2)
    ∧ database w2 = database w1
    ∧ storeLog w2 = storeLog w1 ++ [PersonFindFirst environmentId "userId" userId]
    ∧ (filter (ownsUserId (database w) environmentId userId) (persons (database w)) = [] →
       persons (database w1)
         = persons (database w)
           ++ [ {| person_id := id person;
                   person_environmentId := environmentId;
                   person_createdAt := clock w;
                   person_updatedAt := clock w |} ]
       ∧ attributeRows (database w1)
         = attributeRows (database w) ++ [newRow (attributeClass_id cls) (id person) userId]
       ∧ (attributeClass_archived cls = false →
          attributes person = {[ "userId" := userId ]}))
    ∧ (filter (ownsUserId (database w) environmentId userId) (persons (database w)) ≠ [] →
       database w1 = database w).
Proof.
  intros Hup Hwf Hlookup Hfresh.
  destruct (head (filter (ownsUserId (database w) environmentId userId)
                    (persons (database w)))) as [q|] eqn:Hfind.
  - (* somebody owns the userId already *)
    set (w1 := called (PersonFindFirst environmentId "userId" userId) (database w) w).
    exists (transformPrismaPerson (Query.applySelect selectPerson (database w) q)), w1,
      (called (PersonFindFirst environmentId "userId" userId) (database w1) w1).
    split; [apply getOrCreatePersonByUserId_found;
            [eapply storeUp_le; [|exact Hup]; lia | exact Hfind]|].
    split; [apply (getOrCreatePersonByUserId_found genId userId environmentId w1 q);
            [eapply storeUp_le; [|apply storeUp_called; exact Hup]; lia | exact Hfind]|].
    split; [reflexivity|]. split; [reflexivity|]. split.
    + intros Hnone. rewrite Hnone in Hfind. discriminate.
    + reflexivity.
  - (* nobody does: the first call creates the person *)
    pose proof Hlookup as Hhead. unfold Query.attributeClass_findFirst in Hhead.
    simpl in Hhead. injection Hhead as Hhead.
    apply head_filter_elem in Hhead as [[Henv Hname] Hcls].
    pose proof Hwf as (_ & Hnodup & _).
    set (attrs := [(attributeClass_id cls, userId)]).
    set (db' := created genId (clock w) environmentId attrs (database w)).
    set (row := createdRow genId (clock w) environmentId (database w)).
    set (w1 := (revalidateTag (genId (idCounter (database w)))
                  (called (PersonCreate environmentId attrs) db'
                     (called (AttributeClassFindFirst environmentId "userId") (database w)
                        (called (PersonFindFirst environmentId "userId" userId)
                           (database w) w)))).2).
    assert (Hup1 : storeUp 1 w1).
    { apply storeUp_revalidateTag. do 3 apply storeUp_called. exact Hup. }
    assert (Hfound : head (filter (ownsUserId (database w1) environmentId userId)
                             (persons (database w1))) = Some row).
    { apply (created_findFirst genId (clock w) environmentId userId cls (database w));
        assumption. }
    exists (transformPrismaPerson (Query.applySelect selectPerson db' row)), w1,
      (called (PersonFindFirst environmentId "userId" userId) (database w1) w1).
    split; [apply getOrCreatePersonByUserId_created;
            [eapply storeUp_le; [|exact Hup]; lia | assumption..]|].
    split; [apply (getOrCreatePersonByUserId_found genId userId environmentId w1 row Hup1 Hfound)|].
    split; [reflexivity|]. split; [reflexivity|]. split.
    + intros _. split; [reflexivity|]. split; [reflexivity|].
      intros Hlive. unfold transformPrismaPerson. simpl.
      unfold db', attrs.
      rewrite (created_selectAttributes genId (clock w) environmentId userId cls
                 (database w) Hwf Hcls Hfresh).
      rewrite Hlive, Hname. simpl. apply insert_empty.
    + intros Hsome. apply head_None in Hfind. contradiction.
Qed.

End FindOrCreateTwice.

(** ** The cached lookup *)

Lemma cachedEntry_Some keyParts w e :
  cachedEntry keyParts w = Some e → e ∈ cache w ∧ entry_key e = keyParts.
Proof.
  unfold cachedEntry. intros H. apply head_filter_elem in H. tauto.
Qed.


Lemma roundTrip_read {A} call (query : Date → Database → Completion A * Database) w :
  (∀ today db, (query today db).2 = db) →
  database (roundTrip call query w).2 = database w.
Proof.
  intros Hread. unfold roundTrip. simpl.
  destruct (head (faults w)) as [[error|]|]; simpl; auto.
Qed.

Section CachedLookup.
Variable ZId : string → bool.

(** What a returning [getPerson] has done. *)
Lemma getPerson_Return personId w v w' :
  getPerson ZId personId w = (Return v, w') →
  ZId personId = true
  ∧ v = storedPerson (database w) personId
  ∧ w' = called (PersonFindUnique personId) (database w) w.
Proof.
  intros Hget. destruct (ZId personId) eqn:Hvalid;
    [|rewrite getPerson_malformed in Hget by exact Hvalid; discriminate].
  rewrite getPerson_valid in Hget by exact Hvalid.
  destruct (prisma_person_findUnique personId selectPerson w) as [[raw|e] w1] eqn:Hcall;
    [|discriminate].
  injection Hget as <- <-.
  apply roundTrip_Return in Hcall as [Hquery Hw1].
  unfold Query.person_findUnique in Hquery. injection Hquery as <- Hdb.
  rewrite <- Hdb in Hw1. split; [reflexivity|]. split; [|exact Hw1].
  unfold storedPerson. destruct (Query.findPerson (database w) personId); reflexivity.
Qed.

Lemma getPerson_Throw personId w error w' :
  getPerson ZId personId w = (Throw error, w') →
  database w' = database w ∧ cache w' = cache w.
Proof.
  intros Hget. destruct (ZId personId) eqn:Hvalid.
  - rewrite getPerson_valid in Hget by exact Hvalid.
    pose proof (roundTrip_read (PersonFindUnique personId)
                  (λ _, Query.person_findUnique personId selectPerson) w
                  (λ _ _, eq_refl)) as Hdb.
    pose proof (roundTrip_cache (PersonFindUnique personId)
                  (λ _, Query.person_findUnique personId selectPerson) w) as [Hcache _].
    fold (prisma_person_findUnique personId selectPerson) in Hdb, Hcache.
    destruct (prisma_person_findUnique personId selectPerson w) as [[raw|e] w1];
      [discriminate|]. injection Hget as _ <-. auto.
  - rewrite getPerson_malformed in Hget by exact Hvalid. injection Hget as _ <-. auto.
Qed.

Lemma coherent_entry w e personId :
  coherent ZId w → e ∈ cache w → entry_key e = [personId] →
  entry_tags e = [personId]
  ∧ ZId personId = true
  ∧ entry_value e = jsonRoundTrip <$> storedPerson (database w) personId.
Proof.
  unfold coherent. rewrite Forall_forall. intros Hcoh He Hkey.
  specialize (Hcoh e He). unfold coherentEntry in Hcoh. rewrite Hkey in Hcoh. exact Hcoh.
Qed.

(** The three ways a call of [getPersonCached] goes. *)
Lemma getPersonCached_miss personId w :
  cachedEntry [personId] w = None →
  getPersonCached ZId personId w
  = match getPerson ZId personId w with
    | (Return v, w') =>
        (Return (Computed v),
         fileEntry [personId] {| tags := [personId]; revalidate := 1800 |} v w')
    | (Throw error, w') => (Throw error, w')
    end.
Proof.
  intros Hmiss. unfold getPersonCached, unstable_cache, getPersonCacheKey.
  rewrite Hmiss. reflexivity.
Qed.

Lemma getPersonCached_fresh personId w e :
  cachedEntry [personId] w = Some e → isFresh e w →
  getPersonCached ZId personId w = (Return (Parsed (entry_value e)), w).
Proof.
  intros Hentry Hfresh. unfold getPersonCached, unstable_cache, getPersonCacheKey.
  rewrite Hentry, bool_decide_eq_true_2 by exact Hfresh. reflexivity.
Qed.

Lemma getPersonCached_stale personId w e :
  cachedEntry [personId] w = Some e → ¬ isFresh e w →
  getPersonCached ZId personId w
  = (Return (Parsed (entry_value e)),
     match getPerson ZId personId w with
     | (Return v, w') =>
         fileEntry [personId] {| tags := [personId]; revalidate := 1800 |} v w'
     | (Throw _, w') => w'
     end).
Proof.
  intros Hentry Hstale. unfold getPersonCached, unstable_cache, getPersonCacheKey.
  rewrite Hentry, bool_decide_eq_false_2 by exact Hstale.
  destruct (getPerson ZId personId w) as [[v|error] w']; reflexivity.
Qed.


End CachedLookup.

(** ** The cache stays in step with the store *)

Lemma omap_ext_all {A B} (f g : A → option B) (l : list A) :
  (∀ x, f x = g x) → omap f l = omap g l.
Proof.
  intros Hfg. induction l as [|x l IH]; [reflexivity|].
  rewrite !omap_cons, Hfg, IH. reflexivity.
Qed.

(** [storedPerson] reads the person's row, the person's attribute rows and
    the attribute classes, nothing else. *)
Lemma storedPerson_ext db db' personId :
  Query.findPerson db' personId = Query.findPerson db personId →
  attributeClasses db' = attributeClasses db →
  filter (λ r, attribute_personId r = personId) (attributeRows db')
    = filter (λ r, attribute_personId r = personId) (attributeRows db) →
  storedPerson db' personId = storedPerson db personId.
Proof.
  intros Hperson Hclasses Hrows. unfold storedPerson. rewrite Hperson.
  destruct (Query.findPerson db personId) as [p|] eqn:Hp; [|reflexivity].
  apply findPerson_Some in Hp as [_ Hid]. simpl. f_equal. f_equal.
  unfold Query.applySelect. f_equal. unfold Query.selectAttributes.
  rewrite Hid, Hrows. apply omap_ext_all. intros r.
  apply selectAttribute_same. exact Hclasses.
Qed.

Lemma storedPerson_created genId today environmentId attrs db personId :
  personId ≠ genId (idCounter db) →
  storedPerson (created genId today environmentId attrs db) personId
  = storedPerson db personId.
Proof.
  intros Hne. apply storedPerson_ext; [|reflexivity|].
  - unfold Query.findPerson. simpl. apply head_filter_app_stable.
    constructor; [|constructor]. simpl. congruence.
  - simpl. rewrite filter_app.
    replace (filter _ (_ <$> attrs)) with (@nil AttributeRow);
      [apply app_nil_r|].
    symmetry. apply filter_none, Forall_forall. intros r Hr Hpid.
    apply list_elem_of_fmap in Hr as (a & -> & _). simpl in Hpid. congruence.
Qed.

Lemma storedPerson_deleted db db' deleted personId p :
  Query.person_delete deleted db = (Return p, db') →
  personId ≠ deleted →
  storedPerson db' personId = storedPerson db personId.
Proof.
  unfold Query.person_delete. intros Hdelete Hne.
  destruct (Query.findPerson db deleted); [|discriminate].
  injection Hdelete as _ <-. apply storedPerson_ext; [|reflexivity|]; simpl.
  - unfold Query.findPerson. simpl. rewrite list_filter_filter. f_equal.
    apply filter_local. intros q _. split; [tauto|]. intros Hq. split; congruence.
  - rewrite list_filter_filter. apply filter_local.
    intros r _. split; [tauto|]. intros Hr. split; congruence.
Qed.

Lemma attribute_upsert_cases c p v db :
  let outcome := Query.attribute_upsert c p v db in
  outcome = (Throw Query.recordNotFound, db)
  ∨ (outcome.1 = Return (newRow c p v)
     ∧ environments outcome.2 = environments db
     ∧ persons outcome.2 = persons db
     ∧ attributeClasses outcome.2 = attributeClasses db
     ∧ idCounter outcome.2 = idCounter db
     ∧ (attributeRows outcome.2 = overwrite c p v <$> attributeRows db
        ∨ (attributeRows outcome.2 = attributeRows db ++ [newRow c p v]
           ∧ ¬ Exists (Query.keyed c p) (attributeRows db)
           ∧ is_Some (Query.findClass db c)
           ∧ is_Some (Query.findPerson db p)))).
Proof.
  unfold Query.attribute_upsert. fold (newRow c p v). fold (overwrite c p v).
  case_bool_decide as Hex; simpl; [auto 10|].
  case_bool_decide as Hfk; simpl; [|auto]. destruct Hfk. right. auto 15.
Qed.

Lemma storedPerson_upserted c p v db personId :
  personId ≠ p →
  storedPerson (Query.attribute_upsert c p v db).2 personId = storedPerson db personId.
Proof.
  intros Hne. destruct (attribute_upsert_cases c p v db)
    as [-> | (_ & _ & Hpersons & Hclasses & _ & Hrows)]; [reflexivity|].
  apply storedPerson_ext.
  - apply findPerson_same. exact Hpersons.
  - exact Hclasses.
  - destruct Hrows as [-> | (-> & _)].
    + apply filter_other_overwrite.
      * intros r Hr [_ Hp]. congruence.
      * simpl. congruence.
    + rewrite filter_app. rewrite (filter_cons_False _ (newRow c p v)) by (simpl; congruence).
      rewrite filter_nil. apply app_nil_r.
Qed.

Lemma person_create_cases genId today environmentId attrs select db :
  let outcome := Query.person_create genId today environmentId attrs select db in
  (∃ error, outcome = (Throw error, db))
  ∨ (environmentId ∈ environments db
     ∧ Forall (λ a, is_Some (Query.findClass db a.1)) attrs
     ∧ Query.findPerson db (genId (idCounter db)) = None
     ∧ outcome
       = (Return (Query.applySelect select (created genId today environmentId attrs db)
                    (createdRow genId today environmentId db)),
          created genId today environmentId attrs db)).
Proof.
  unfold Query.person_create.
  case_bool_decide as Hfk; simpl; [|eauto].
  case_bool_decide as Hid; simpl; [eauto|]. destruct Hfk. right.
  repeat split; try assumption.
  destruct (Query.findPerson db (genId (idCounter db))); [|reflexivity].
  exfalso. apply Hid. eauto.
Qed.

Lemma roundTrip_cases {A} call (query : Date → Database → Completion A * Database) w :
  (∃ error, roundTrip call query w = (Throw error, called call (database w) w))
  ∨ roundTrip call query w
    = ((query (clock w) (database w)).1, called call (query (clock w) (database w)).2 w).
Proof.
  unfold roundTrip. destruct (head (faults w)) as [[error|]|]; simpl; eauto.
Qed.

Lemma inStep_called call w : inStep w (called call (database w) w).
Proof. left. split; reflexivity. Qed.

Lemma inStep_read {A} call (query : Date → Database → Completion A * Database) w :
  (∀ today db, (query today db).2 = db) →
  inStep w (roundTrip call query w).2.
Proof.
  intros Hread. left. split; [apply roundTrip_read; exact Hread | reflexivity].
Qed.

Section Coherence.
Variable ZId : string → bool.
Variable genId : nat → string.

Lemma coherent_inStep w w' : inStep w w' → coherent ZId w → coherent ZId w'.
Proof.
  unfold coherent. intros [[Hdb Hcache] | (tag & Hcache & Hstored)] Hcoh.
  - rewrite Hdb, Hcache. exact Hcoh.
  - rewrite Hcache. rewrite Forall_forall in Hcoh |- *. intros e He.
    apply list_elem_of_filter in He as [Htag He]. specialize (Hcoh e He).
    unfold coherentEntry in *. destruct (entry_key e) as [|personId [|? ?]]; try contradiction.
    destruct Hcoh as (Htags & Hvalid & Hvalue). rewrite Htags in Htag.
    repeat split; try assumption. rewrite Hvalue. symmetry. f_equal. apply Hstored.
    intros ->. apply Htag. left.
Qed.

Lemma inStep_getPerson personId w : inStep w (getPerson ZId personId w).2.
Proof.
  destruct (getPerson ZId personId w) as [[v|error] w'] eqn:Hget.
  - apply getPerson_Return in Hget as (_ & _ & ->). apply inStep_called.
  - apply getPerson_Throw in Hget. left. exact Hget.
Qed.

Lemma inStep_getPeople environmentId w : inStep w (getPeople ZId environmentId w).2.
Proof.
  destruct (ZId environmentId) eqn:Hvalid.
  - rewrite getPeople_valid by exact Hvalid.
    pose proof (inStep_read (PersonFindMany environmentId)
                  (λ _, Query.person_findMany environmentId selectPerson) w
                  (λ _ _, eq_refl)) as Hstep.
    fold (prisma_person_findMany environmentId selectPerson) in Hstep.
    destruct (prisma_person_findMany environmentId selectPerson w) as [[[raw|]|e] w'];
      exact Hstep.
  - rewrite getPeople_malformed by exact Hvalid. left. split; reflexivity.
Qed.

Lemma inStep_create environmentId attrs w :
  inStep w
    (match prisma_person_create genId environmentId attrs selectPerson w with
     | (Return personPrisma, w') => (revalidateTag (input_id personPrisma) w').2
     | (Throw _, w') => w'
     end).
Proof.
  unfold prisma_person_create.
  destruct (roundTrip_cases (PersonCreate environmentId attrs)
              (λ today, Query.person_create genId today environmentId attrs selectPerson) w)
    as [(error & ->) | ->]; [apply inStep_called|].
  destruct (person_create_cases genId (clock w) environmentId attrs selectPerson
              (database w)) as [(error & ->) | (_ & _ & _ & ->)]; [apply inStep_called|].
  right. exists (genId (idCounter (database w))). split; [reflexivity|].
  intros personId Hne. simpl. apply storedPerson_created. exact Hne.
Qed.

Lemma inStep_createPerson environmentId w :
  inStep w (createPerson ZId genId environmentId w).2.
Proof.
  destruct (ZId environmentId) eqn:Hvalid.
  - rewrite createPerson_valid by exact Hvalid.
    pose proof (inStep_create environmentId [] w) as Hstep.
    destruct (prisma_person_create genId environmentId [] selectPerson w) as [[raw|e] w'];
      exact Hstep.
  - rewrite createPerson_malformed by exact Hvalid. left. split; reflexivity.
Qed.

Lemma inStep_deletePerson personId w : inStep w (deletePerson ZId personId w).2.
Proof.
  destruct (ZId personId) eqn:Hvalid.
  - rewrite deletePerson_valid by exact Hvalid. unfold prisma_person_delete.
    destruct (roundTrip_cases (PersonDelete personId)
                (λ _, Query.person_delete personId) w)
      as [(error & ->) | ->]; [apply inStep_called|].
    destruct (Query.person_delete personId (database w)) as [[p|error] db'] eqn:Hdelete.
    + right. exists personId. split; [reflexivity|].
      intros q Hne. simpl. apply (storedPerson_deleted _ _ _ _ _ Hdelete Hne).
    + assert (db' = database w) as ->.
      { unfold Query.person_delete in Hdelete.
        destruct (Query.findPerson (database w) personId); congruence. }
      apply inStep_called.
  - rewrite deletePerson_malformed by exact Hvalid. left. split; reflexivity.
Qed.

Lemma inStep_updatePersonAttribute personId attributeClassId attrValue w :
  inStep w (updatePersonAttribute personId attributeClassId attrValue w).2.
Proof.
  rewrite updatePersonAttribute_unfold. unfold prisma_attribute_upsert.
  destruct (roundTrip_cases (AttributeUpsert attributeClassId personId attrValue)
              (λ _, Query.attribute_upsert attributeClassId personId attrValue) w)
    as [(error & ->) | ->]; [apply inStep_called|].
  pose proof (storedPerson_upserted attributeClassId personId attrValue (database w))
    as Hstored.
  destruct (attribute_upsert_cases attributeClassId personId attrValue (database w))
    as [Hthrow | (Hreturn & _)].
  - simpl in Hthrow. rewrite Hthrow. apply inStep_called.
  - simpl in Hreturn.
    destruct (Query.attribute_upsert attributeClassId personId attrValue (database w))
      as [r db']. simpl in *. subst r.
    right. exists personId. split; [reflexivity|]. exact Hstored.
Qed.

Lemma inStep_getOrCreatePersonByUserId userId environmentId w :
  inStep w (getOrCreatePersonByUserId genId userId environmentId w).2.
Proof.
  rewrite getOrCreatePersonByUserId_unfold.
  pose proof (roundTrip_read (PersonFindFirst environmentId "userId" userId)
                (λ _, Query.person_findFirst environmentId "userId" userId selectPerson) w
                (λ _ _, eq_refl)) as Hdb1.
  pose proof (roundTrip_cache (PersonFindFirst environmentId "userId" userId)
                (λ _, Query.person_findFirst environmentId "userId" userId selectPerson) w)
    as [Hcache1 _].
  fold (prisma_person_findFirst environmentId "userId" userId selectPerson) in Hdb1, Hcache1.
  destruct (prisma_person_findFirst environmentId "userId" userId selectPerson w)
    as [[[raw|]|e] w1]; simpl in Hdb1, Hcache1; try (left; split; assumption).
  unfold getAttributeClassByName.
  pose proof (roundTrip_read (AttributeClassFindFirst environmentId "userId")
                (λ _, Query.attributeClass_findFirst environmentId "userId") w1
                (λ _ _, eq_refl)) as Hdb2.
  pose proof (roundTrip_cache (AttributeClassFindFirst environmentId "userId")
                (λ _, Query.attributeClass_findFirst environmentId "userId") w1)
    as [Hcache2 _].
  fold (prisma_attributeClass_findFirst environmentId "userId") in Hdb2, Hcache2.
  destruct (prisma_attributeClass_findFirst environmentId "userId" w1)
    as [[[cls|]|e] w2]; simpl in Hdb2, Hcache2;
    try (left; simpl; split; congruence).
  pose proof (inStep_create environmentId [(attributeClass_id cls, userId)] w2) as Hstep.
  destruct (prisma_person_create genId environmentId _ selectPerson w2) as [[raw|e] w3];
    simpl in *.
  - destruct Hstep as [[Hdb3 Hcache3] | (tag & Hcache3 & Hstored)].
    + left. split; congruence.
    + right. exists tag. rewrite Hcache3, Hcache2, Hcache1. split; [reflexivity|].
      intros personId Hne. rewrite (Hstored personId Hne), Hdb2, Hdb1. reflexivity.
  - destruct Hstep as [[Hdb3 Hcache3] | (tag & Hcache3 & Hstored)].
    + left. split; congruence.
    + right. exists tag. rewrite Hcache3, Hcache2, Hcache1. split; [reflexivity|].
      intros personId Hne. rewrite (Hstored personId Hne), Hdb2, Hdb1. reflexivity.
Qed.

Lemma coherent_refiled personId w :
  coherent ZId w →
  coherent ZId
    match getPerson ZId personId w with
    | (Return v, w') =>
        fileEntry [personId] {| tags := [personId]; revalidate := 1800 |} v w'
    | (Throw _, w') => w'
    end.
Proof.
  intros Hcoh.
  destruct (getPerson ZId personId w) as [[v|error] w'] eqn:Hget.
  - apply getPerson_Return in Hget as (Hvalid & -> & ->).
    unfold coherent. simpl. constructor.
    + unfold coherentEntry. simpl. auto.
    + apply Forall_forall. intros e He. apply list_elem_of_filter in He as [_ He].
      unfold coherent in Hcoh. rewrite Forall_forall in Hcoh. apply Hcoh. exact He.
  - apply getPerson_Throw in Hget as [Hdb Hcache].
    unfold coherent. simpl. rewrite Hdb, Hcache. exact Hcoh.
Qed.

Lemma coherent_getPersonCached personId w :
  coherent ZId w → coherent ZId (getPersonCached ZId personId w).2.
Proof.
  intros Hcoh. pose proof (coherent_refiled personId w Hcoh) as Hrefiled.
  destruct (cachedEntry [personId] w) as [e|] eqn:Hentry.
  - destruct (decide (isFresh e w)) as [Hfresh|Hstale].
    + rewrite (getPersonCached_fresh ZId personId w e Hentry Hfresh). exact Hcoh.
    + rewrite (getPersonCached_stale ZId personId w e Hentry Hstale). exact Hrefiled.
  - rewrite (getPersonCached_miss ZId personId w Hentry).
    destruct (getPerson ZId personId w) as [[v|error] w']; exact Hrefiled.
Qed.

(** The agreement of cache and store is kept by every request. *)
Lemma coherent_serve r w : coherent ZId w → coherent ZId (serve ZId genId r w).
Proof.
  destruct r; simpl.
  - apply coherent_inStep, inStep_getPerson.
  - apply coherent_getPersonCached.
  - apply coherent_inStep, inStep_getPeople.
  - apply coherent_inStep, inStep_createPerson.
  - apply coherent_inStep, inStep_deletePerson.
  - apply coherent_inStep, inStep_getOrCreatePersonByUserId.
  - apply coherent_inStep, inStep_updatePersonAttribute.
  - intros H. exact H.
Qed.

(** X13.  The cache stays in step with the store.  Starting from an empty
    cache, after any sequence of requests (reads, cached reads, creations,
    deletions, find-or-create, attribute writes, time passing, with the
    store failing wherever it is scripted to), every cache entry was filed
    by [getPersonCached] under the key and tag of a valid id and holds the
    JSON form of what the store holds for that id: each write revalidates
    the tag of the one person it touches. *)
Lemma coherent_serveAll requests w :
  cache w = [] → coherent ZId (serveAll ZId genId requests w).
Proof.
  intros Hempty. assert (Hcoh : coherent ZId w).
  { unfold coherent. rewrite Hempty. constructor. }
  clear Hempty. revert w Hcoh. unfold serveAll.
  induction requests as [|r requests IH]; intros w Hcoh; [exact Hcoh|].
  simpl. apply IH, coherent_serve, Hcoh.
Qed.

End Coherence.

(** ** The store keeps its constraints *)


Lemma findClass_is_Some_same db db' c :
  attributeClasses db' = attributeClasses db →
  is_Some (Query.findClass db c) → is_Some (Query.findClass db' c).
Proof. intros H. rewrite (findClass_same db db' c H). auto. Qed.



Lemma freshIds_next genId db :
  freshIds genId db → Query.findPerson db (genId (idCounter db)) = None.
Proof.
  intros [Hinj Hbelow].
  destruct (Query.findPerson db (genId (idCounter db))) as [p|] eqn:Hp; [|reflexivity].
  apply findPerson_Some in Hp as [Hp Hid].
  rewrite Forall_forall in Hbelow. destruct (Hbelow p Hp) as (n & Hlt & Hn).
  rewrite Hn in Hid. apply Hinj in Hid. lia.
Qed.




Lemma database_revalidateTag tag w : database (revalidateTag tag w).2 = database w.
Proof. reflexivity. Qed.

Section Soundness.
Variable ZId : string → bool.
Variable genId : nat → string.











End Soundness.

(** * More of the service *)

(** ** Reads and validation *)

Lemma getPerson_up ZId personId w :
  ZId personId = true →
  storeUp 1 w →
  getPerson ZId personId w
  = (Return (storedPerson (database w) personId),
     called (PersonFindUnique personId) (database w) w).
Proof.
  intros Hvalid Hup. rewrite getPerson_valid by exact Hvalid.
  unfold prisma_person_findUnique. rewrite roundTrip_up by exact Hup.
  unfold storedPerson. simpl.
  destruct (Query.findPerson (database w) personId); reflexivity.
Qed.

Lemma getPeople_up ZId environmentId w :
  ZId environmentId = true →
  storeUp 1 w →
  getPeople ZId environmentId w
  = (Return ((λ p, transformPrismaPerson (Query.applySelect selectPerson (database w) p))
               <$> filter (λ p, person_environmentId p = environmentId)
                          (persons (database w))),
     called (PersonFindMany environmentId) (database w) w).
Proof.
  intros Hvalid Hup. rewrite getPeople_valid by exact Hvalid.
  unfold prisma_person_findMany. rewrite roundTrip_up by exact Hup.
  simpl. rewrite <- list_fmap_compose. reflexivity.
Qed.

Lemma roundTrip_read_world {A} call
    (query : Date → Database → Completion A * Database) w :
  (∀ today db, (query today db).2 = db) →
  (roundTrip call query w).2 = called call (database w) w.
Proof.
  intros Hread. unfold roundTrip. simpl.
  destruct (head (faults w)) as [[error|]|]; simpl; rewrite ?Hread; reflexivity.
Qed.

Lemma getPerson_world ZId personId w :
  ZId personId = true →
  (getPerson ZId personId w).2 = called (PersonFindUnique personId) (database w) w.
Proof.
  intros Hvalid. rewrite getPerson_valid by exact Hvalid.
  pose proof (roundTrip_read_world (PersonFindUnique personId)
                (λ _, Query.person_findUnique personId selectPerson) w
                (λ _ _, eq_refl)) as Hworld.
  fold (prisma_person_findUnique personId selectPerson) in Hworld.
  destruct (prisma_person_findUnique personId selectPerson w) as [[raw|e] w1];
    exact Hworld.
Qed.

Lemma getPeople_world ZId environmentId w :
  ZId environmentId = true →
  (getPeople ZId environmentId w).2
  = called (PersonFindMany environmentId) (database w) w.
Proof.
  intros Hvalid. rewrite getPeople_valid by exact Hvalid.
  pose proof (roundTrip_read_world (PersonFindMany environmentId)
                (λ _, Query.person_findMany environmentId selectPerson) w
                (λ _ _, eq_refl)) as Hworld.
  fold (prisma_person_findMany environmentId selectPerson) in Hworld.
  destruct (prisma_person_findMany environmentId selectPerson w) as [[[raw|]|e] w1];
    exact Hworld.
Qed.

Section ReadsAndValidation.
Variable ZId : string → bool.
Variable genId : nat → string.

(** X1.  [getPeople] and [createPerson] check the environment id before
    anything else: on a malformed id both throw ValidationError and leave
    the world as it was.  [getOrCreatePersonByUserId] checks neither of its
    arguments: whatever they are, its first step is the lookup in the
    store. *)
Theorem malformed_environment_id_list_create_fail (environmentId : string) (w : World) :
  ZId environmentId = false →
  getPeople ZId environmentId w = (Throw ValidationError, w)
  ∧ createPerson ZId genId environmentId w = (Throw ValidationError, w)
  ∧ (∀ userId, ∃ rest,
       storeLog (getOrCreatePersonByUserId genId userId environmentId w).2
       = storeLog w ++ PersonFindFirst environmentId "userId" userId :: rest).
Proof.
  intros Hbad. split; [apply getPeople_malformed, Hbad|].
  split; [apply createPerson_malformed, Hbad|].
  intros userId. rewrite getOrCreatePersonByUserId_unfold.
  unfold prisma_person_findFirst, getAttributeClassByName,
    prisma_attributeClass_findFirst, prisma_person_create.
  set (first := PersonFindFirst environmentId "userId" userId).
  destruct (roundTrip first _ w) as [[[raw|]|e] w1] eqn:H1;
    pose proof (roundTrip_log first
                  (λ _, Query.person_findFirst environmentId "userId" userId selectPerson) w)
      as Hlog1;
    rewrite H1 in Hlog1; simpl in Hlog1; try (exists []; exact Hlog1).
  set (second := AttributeClassFindFirst environmentId "userId").
  destruct (roundTrip second _ w1) as [[[cls|]|e] w2] eqn:H2;
    pose proof (roundTrip_log second
                  (λ _, Query.attributeClass_findFirst environmentId "userId") w1) as Hlog2;
    rewrite H2 in Hlog2; simpl in Hlog2;
    try (exists [second]; simpl; rewrite Hlog2, Hlog1, <- app_assoc; reflexivity).
  set (third := PersonCreate environmentId [(attributeClass_id cls, userId)]).
  pose proof (roundTrip_log third
                (λ today, Query.person_create genId today environmentId
                            [(attributeClass_id cls, userId)] selectPerson) w2) as Hlog3.
  destruct (roundTrip third _ w2) as [[raw|e] w3]; simpl in Hlog3 |- *;
    exists [second; third]; rewrite Hlog3, Hlog2, Hlog1, <- !app_assoc; reflexivity.
Qed.

(** X2.  The exported [getPerson] and [getPeople] only read.  Whatever
    the input, the store's answer and the outcomes already kept for the
    request, a call leaves the database, the cache, the revalidated tags
    and the clock as they were.  It makes one store call, the lookup, when
    the argument passes validation and no outcome is kept for it, and
    none otherwise.  Afterwards an outcome is kept for the argument: a
    further call with it in the same request ends the same way and leaves
    the world it finds untouched, whatever that world is. *)
Theorem reads_change_nothing (input : string) (w : World)
    (memo : Memo (option TPerson)) (memoPeople : Memo (list TPerson)) :
  (let call := getPersonInRequest ZId input memo w in
   database call.1.2 = database w
   ∧ cache call.1.2 = cache w
   ∧ revalidated call.1.2 = revalidated w
   ∧ clock call.1.2 = clock w
   ∧ storeLog call.1.2
     = storeLog w ++ match kept input memo with
                     | Some _ => []
                     | None => if ZId input then [PersonFindUnique input] else []
                     end
   ∧ ∀ w', getPersonInRequest ZId input call.2 w' = (call.1.1, w', call.2))
  ∧ (let call := getPeopleInRequest ZId input memoPeople w in
     database call.1.2 = database w
     ∧ cache call.1.2 = cache w
     ∧ revalidated call.1.2 = revalidated w
     ∧ clock call.1.2 = clock w
     ∧ storeLog call.1.2
       = storeLog w ++ match kept input memoPeople with
                       | Some _ => []
                       | None => if ZId input then [PersonFindMany input] else []
                       end
     ∧ ∀ w', getPeopleInRequest ZId input call.2 w' = (call.1.1, w', call.2)).
Proof.
  unfold getPersonInRequest, getPeopleInRequest, reactCache. split.
  - destruct (kept input memo) as [outcome|] eqn:Hkept; cbn [fst snd].
    + rewrite app_nil_r, Hkept. repeat split.
    + assert (Hnext : kept input ((input, (getPerson ZId input w).1) :: memo)
                      = Some (getPerson ZId input w).1).
      { unfold kept. rewrite filter_cons_True by reflexivity. reflexivity. }
      rewrite Hnext. destruct (ZId input) eqn:Hvalid.
      * rewrite (getPerson_world ZId input w Hvalid). repeat split.
      * rewrite getPerson_malformed by exact Hvalid. simpl.
        rewrite app_nil_r. repeat split.
  - destruct (kept input memoPeople) as [outcome|] eqn:Hkept; cbn [fst snd].
    + rewrite app_nil_r, Hkept. repeat split.
    + assert (Hnext : kept input ((input, (getPeople ZId input w).1) :: memoPeople)
                      = Some (getPeople ZId input w).1).
      { unfold kept. rewrite filter_cons_True by reflexivity. reflexivity. }
      rewrite Hnext. destruct (ZId input) eqn:Hvalid.
      * rewrite (getPeople_world ZId input w Hvalid). repeat split.
      * rewrite getPeople_malformed by exact Hvalid. simpl.
        rewrite app_nil_r. repeat split.
Qed.

End ReadsAndValidation.

(** ** The list and the single lookup *)

Lemma findPerson_member db p :
  NoDup (person_id <$> persons db) →
  p ∈ persons db →
  Query.findPerson db (person_id p) = Some p.
Proof. intros Hnodup Hp. unfold Query.findPerson. apply head_filter_NoDup; assumption. Qed.

Section ListAndLookup.
Variable ZId : string → bool.

(** X3.  With a valid environment id and a store that answers, [getPeople]
    returns one person for each person row of the environment, in the order
    of the table, and no other.  When person ids are unique, each listed
    person is what [getPerson] returns for its id. *)
Theorem getPeople_lists_the_environment (environmentId : string) (w : World) :
  ZId environmentId = true →
  storeUp 1 w →
  ∃ people,
    (getPeople ZId environmentId w).1 = Return people
    ∧ id <$> people
      = person_id <$> filter (λ p, person_environmentId p = environmentId)
                             (persons (database w))
    ∧ (NoDup (person_id <$> persons (database w)) →
       ∀ person, person ∈ people →
         storedPerson (database w) (id person) = Some person
         ∧ (ZId (id person) = true →
            (getPerson ZId (id person) w).1 = Return (Some person))).
Proof.
  intros Hvalid Hup. rewrite (getPeople_up ZId environmentId w Hvalid Hup).
  eexists. split; [reflexivity|]. split.
  - rewrite <- list_fmap_compose. reflexivity.
  - intros Hnodup person Hperson.
    apply list_elem_of_fmap in Hperson as (p & -> & Hp).
    apply list_elem_of_filter in Hp as [_ Hp].
    assert (Hstored : storedPerson (database w)
                        (id (transformPrismaPerson
                               (Query.applySelect selectPerson (database w) p)))
                      = Some (transformPrismaPerson
                                (Query.applySelect selectPerson (database w) p))).
    { unfold storedPerson. simpl. rewrite (findPerson_member _ _ Hnodup Hp). reflexivity. }
    split; [exact Hstored|].
    intros Hid. rewrite (getPerson_up ZId _ w Hid Hup). cbn [fst].
    rewrite Hstored. reflexivity.
Qed.

End ListAndLookup.

(** ** Create, look up, delete *)

Lemma no_rows_for_unknown_person db personId :
  wellFormed db →
  Query.findPerson db personId = None →
  filter (λ r, attribute_personId r = personId) (attributeRows db) = [].
Proof.
  intros (_ & _ & _ & _ & _ & Hfk) Hnone.
  apply filter_none, Forall_forall. intros r Hr Hpid.
  rewrite Forall_forall in Hfk. destruct (Hfk r Hr) as [_ [p Hp]].
  rewrite Hpid, Hnone in Hp. discriminate.
Qed.

Lemma findPerson_created genId today environmentId attrs db :
  Query.findPerson db (genId (idCounter db)) = None →
  Query.findPerson (created genId today environmentId attrs db) (genId (idCounter db))
  = Some (createdRow genId today environmentId db).
Proof.
  intros Hfresh. unfold Query.findPerson in *. simpl.
  apply head_filter_snoc; [apply head_None; exact Hfresh | reflexivity].
Qed.

Lemma cachedEntry_revalidated ZId personId w w' :
  coherent ZId w →
  cache w' = filter (λ e, personId ∉ entry_tags e) (cache w) →
  cachedEntry [personId] w' = None.
Proof.
  intros Hcoh Hcache. unfold cachedEntry. rewrite Hcache. apply head_None.
  apply filter_none, Forall_forall. intros e He Hkey.
  apply list_elem_of_filter in He as [Htag He].
  destruct (coherent_entry ZId w e personId Hcoh He Hkey) as (Htags & _).
  apply Htag. rewrite Htags. left.
Qed.

Lemma getPersonCached_miss_outcome ZId personId w :
  cachedEntry [personId] w = None →
  (getPersonCached ZId personId w).1 = computed (getPerson ZId personId w).1.
Proof.
  intros Hmiss. rewrite (getPersonCached_miss ZId personId w Hmiss).
  destruct (getPerson ZId personId w) as [[v|e] w']; reflexivity.
Qed.

Section CreateLookupDelete.
Variable ZId : string → bool.
Variable genId : nat → string.

(** X4.  Create, then look up.  Against a store that answers and a sound
    database, with the environment on record and a valid generated id,
    [createPerson] returns a person with the generated id and no
    attributes; it adds one person row, for the environment and with the
    returned id and timestamps, adds no attribute row, and revalidates the
    tag of the new id; and [getPerson] on that id then returns the same
    person. *)
Theorem createPerson_then_getPerson (environmentId : string) (w : World) :
  ZId environmentId = true →
  ZId (genId (idCounter (database w))) = true →
  storeUp 2 w →
  sound genId (database w) →
  environmentId ∈ environments (database w) →
  ∃ person w1,
    createPerson ZId genId environmentId w = (Return person, w1)
    ∧ id person = genId (idCounter (database w))
    ∧ attributes person = ∅
    ∧ persons (database w1)
      = persons (database w)
        ++ [ {| person_id := id person;
                person_environmentId := environmentId;
                person_createdAt := createdAt person;
                person_updatedAt := updatedAt person |} ]
    ∧ attributeRows (database w1) = attributeRows (database w)
    ∧ revalidated w1 = revalidated w ++ [id person]
    ∧ (getPerson ZId (id person) w1).1 = Return (Some person).
Proof.
  intros Hvalid Hid Hup [Hwf Hfreshids] Henv.
  pose proof (freshIds_next genId (database w) Hfreshids) as Hfresh.
  rewrite createPerson_valid by exact Hvalid. unfold prisma_person_create.
  rewrite roundTrip_up by (eapply storeUp_le; [|exact Hup]; lia).
  rewrite person_create_spec by (first [exact Henv | constructor | exact Hfresh]).
  cbn [fst snd].
  set (db' := created genId (clock w) environmentId [] (database w)).
  set (row := createdRow genId (clock w) environmentId (database w)).
  assert (Hattrs : Query.selectAttributes selectPerson db' (person_id row) = []).
  { unfold Query.selectAttributes. simpl. rewrite app_nil_r.
    rewrite (no_rows_for_unknown_person _ _ Hwf Hfresh). reflexivity. }
  eexists _, _. split; [reflexivity|].
  split; [reflexivity|].
  split; [unfold transformPrismaPerson; simpl; fold db'; fold row;
          unfold Query.applySelect; simpl;
          change (genId (idCounter (database w))) with (person_id row);
          rewrite Hattrs; reflexivity|].
  split; [reflexivity|].
  split; [simpl; apply app_nil_r|]. split; [reflexivity|].
  rewrite getPerson_up; [|exact Hid|apply storeUp_revalidateTag, storeUp_called; exact Hup].
  assert (Hstored : storedPerson db' (genId (idCounter (database w)))
                    = Some (transformPrismaPerson (Query.applySelect selectPerson db' row))).
  { unfold storedPerson, db'.
    rewrite (findPerson_created genId (clock w) environmentId [] (database w) Hfresh).
    reflexivity. }
  cbn [fst]. apply (f_equal Return). exact Hstored.
Qed.

(** X5.  Delete, then look up.  With a valid id of a person on record and a
    store that answers, [deletePerson] returns; afterwards no person row
    carries the id, [getPerson] on it returns null, and so does
    [getPersonCached] when the cache agreed with the store before the
    deletion (the tag was revalidated, so no entry is left under the key
    and the lookup goes to the store). *)
Theorem deletePerson_then_absent (personId : string) (w : World) :
  ZId personId = true →
  storeUp 2 w →
  is_Some (Query.findPerson (database w) personId) →
  ∃ w1,
    deletePerson ZId personId w = (Return (), w1)
    ∧ Forall (λ p, person_id p ≠ personId) (persons (database w1))
    ∧ (getPerson ZId personId w1).1 = Return None
    ∧ (coherent ZId w →
       cachedEntry [personId] w1 = None
       ∧ (getPersonCached ZId personId w1).1 = Return (Computed None)).
Proof.
  intros Hvalid Hup [p Hp].
  set (w1 := (revalidateTag personId
                (called (PersonDelete personId)
                   (Query.person_delete personId (database w)).2 w)).2).
  assert (Hrun : deletePerson ZId personId w = (Return (), w1)).
  { rewrite deletePerson_valid by exact Hvalid. unfold prisma_person_delete.
    rewrite roundTrip_up by (eapply storeUp_le; [|exact Hup]; lia).
    subst w1. unfold Query.person_delete. rewrite Hp. reflexivity. }
  assert (Hpersons : persons (database w1)
                     = filter (λ q, person_id q ≠ personId) (persons (database w))).
  { subst w1. unfold Query.person_delete. rewrite Hp. reflexivity. }
  assert (Hgone : Forall (λ q, person_id q ≠ personId) (persons (database w1))).
  { rewrite Hpersons. apply Forall_forall. intros q Hq.
    apply list_elem_of_filter in Hq. tauto. }
  assert (Hup1 : storeUp 1 w1)
    by (subst w1; apply storeUp_revalidateTag, storeUp_called; exact Hup).
  assert (Hget : (getPerson ZId personId w1).1 = Return None).
  { rewrite (getPerson_up ZId personId w1 Hvalid Hup1). cbn [fst].
    unfold storedPerson, Query.findPerson.
    rewrite (proj1 (filter_none (λ q, person_id q = personId) (persons (database w1))));
      [reflexivity|].
    eapply Forall_impl; [exact Hgone|]. auto. }
  exists w1. split; [exact Hrun|]. split; [exact Hgone|]. split; [exact Hget|].
  intros Hcoh.
  assert (Hmiss : cachedEntry [personId] w1 = None)
    by (apply (cachedEntry_revalidated ZId personId w); [exact Hcoh | reflexivity]).
  split; [exact Hmiss|].
  rewrite (getPersonCached_miss_outcome ZId personId w1 Hmiss), Hget. reflexivity.
Qed.

(** X6.  Deleting what is not there.  With a valid id that no person row
    carries, the store rejects the deletion with a known request error and
    [deletePerson] throws DatabaseError "Database operation failed"; the
    database and the cache are as they were and no tag is revalidated. *)
Theorem deletePerson_unknown_id (personId : string) (w : World) :
  ZId personId = true →
  storeUp 1 w →
  Query.findPerson (database w) personId = None →
  deletePerson ZId personId w
  = (Throw (DatabaseError "Database operation failed"),
     called (PersonDelete personId) (database w) w).
Proof.
  intros Hvalid Hup Hnone.
  rewrite deletePerson_valid by exact Hvalid. unfold prisma_person_delete.
  rewrite roundTrip_up by exact Hup.
  unfold Query.person_delete. rewrite Hnone. reflexivity.
Qed.

End CreateLookupDelete.

(** ** Writing an attribute *)

Lemma overwrite_twice c p v (rows : list AttributeRow) :
  overwrite c p v <$> (overwrite c p v <$> rows) = overwrite c p v <$> rows.
Proof.
  rewrite <- list_fmap_compose. apply list_fmap_ext. intros i r _. simpl.
  destruct (decide (Query.keyed c p r)) as [Hk|Hk].
  - rewrite (overwrite_keyed c p v r Hk). apply overwrite_keyed. split; reflexivity.
  - rewrite (overwrite_other c p v r Hk). apply overwrite_other. exact Hk.
Qed.

Lemma overwrite_none c p v (rows : list AttributeRow) :
  ¬ Exists (Query.keyed c p) rows → overwrite c p v <$> rows = rows.
Proof.
  intros Hnone. induction rows as [|r rows IH]; [reflexivity|].
  rewrite fmap_cons, IH by (intros H; apply Hnone; right; exact H).
  rewrite overwrite_other by (intros H; apply Hnone; left; exact H). reflexivity.
Qed.

Lemma Exists_keyed_overwrite c p v (rows : list AttributeRow) :
  Exists (Query.keyed c p) rows → Exists (Query.keyed c p) (overwrite c p v <$> rows).
Proof.
  intros Hex. apply Exists_exists in Hex as (r & Hr & Hk). apply Exists_exists.
  exists (overwrite c p v r). split; [apply list_elem_of_fmap_2; exact Hr|].
  rewrite (overwrite_keyed c p v r Hk). split; reflexivity.
Qed.

(** The upsert run again on its own result changes nothing. *)
Lemma attribute_upsert_again c p v db :
  Query.attribute_upsert c p v (Query.attribute_upsert c p v db).2
  = Query.attribute_upsert c p v db.
Proof.
  unfold Query.attribute_upsert at 2 3.
  fold (newRow c p v). fold (overwrite c p v).
  case_bool_decide as Hex; cbn [snd].
  - unfold Query.attribute_upsert. fold (newRow c p v). fold (overwrite c p v). simpl.
    rewrite bool_decide_true by (apply Exists_keyed_overwrite; exact Hex).
    rewrite overwrite_twice. reflexivity.
  - case_bool_decide as Hfk; cbn [snd].
    + unfold Query.attribute_upsert. fold (newRow c p v). fold (overwrite c p v). simpl.
      rewrite bool_decide_true
        by (apply Exists_app; right; left; split; reflexivity).
      rewrite fmap_app, (overwrite_none c p v _ Hex). simpl.
      rewrite overwrite_keyed by (split; reflexivity). reflexivity.
    + unfold Query.attribute_upsert. fold (newRow c p v). fold (overwrite c p v).
      rewrite bool_decide_false by exact Hex.
      rewrite bool_decide_false by exact Hfk. reflexivity.
Qed.

(** X7.  [updatePersonAttribute] is idempotent on the store: against a
    store that answers, a second call with the same person, class and value
    ends as the first did and leaves the database as the first left it. *)
Theorem updatePersonAttribute_same_value_twice
    (personId attributeClassId attrValue : string) (w : World) :
  storeUp 2 w →
  let first := updatePersonAttribute personId attributeClassId attrValue w in
  let second := updatePersonAttribute personId attributeClassId attrValue first.2 in
  second.1 = first.1 ∧ database second.2 = database first.2.
Proof.
  intros Hup first second. subst first second.
  rewrite !updatePersonAttribute_unfold. unfold prisma_attribute_upsert.
  rewrite (roundTrip_up _ _ w) by (eapply storeUp_le; [|exact Hup]; lia).
  pose proof (attribute_upsert_again attributeClassId personId attrValue (database w))
    as Hagain.
  destruct (Query.attribute_upsert attributeClassId personId attrValue (database w))
    as [[r|e] db1] eqn:Hfirst; cbn [fst snd] in *.
  - rewrite roundTrip_up by (apply storeUp_revalidateTag, storeUp_called; exact Hup).
    cbn [database revalidateTag called snd clock]. rewrite Hagain. split; reflexivity.
  - rewrite roundTrip_up by (apply storeUp_called; exact Hup).
    cbn [database called clock]. rewrite Hagain. split; reflexivity.
Qed.

(** X8.  [updatePersonAttribute] writes to one key of one person and to
    nothing else: whatever the arguments and whatever the store answers, the
    person rows, the attribute classes and the environments are as before
    (no second person is created), the attribute rows under every other key
    are as before, and what the store holds for any other person is
    unchanged. *)
Theorem updatePersonAttribute_touches_one_key
    (personId attributeClassId attrValue : string) (w : World) :
  let after := (updatePersonAttribute personId attributeClassId attrValue w).2 in
  persons (database after) = persons (database w)
  ∧ attributeClasses (database after) = attributeClasses (database w)
  ∧ environments (database after) = environments (database w)
  ∧ filter (λ r, ¬ Query.keyed attributeClassId personId r) (attributeRows (database after))
    = filter (λ r, ¬ Query.keyed attributeClassId personId r) (attributeRows (database w))
  ∧ (∀ other, other ≠ personId →
       storedPerson (database after) other = storedPerson (database w) other).
Proof.
  intros after. subst after.
  rewrite updatePersonAttribute_unfold. unfold prisma_attribute_upsert.
  destruct (roundTrip_cases (AttributeUpsert attributeClassId personId attrValue)
              (λ _, Query.attribute_upsert attributeClassId personId attrValue) w)
    as [(error & ->) | ->]; [simpl; auto|].
  pose proof (storedPerson_upserted attributeClassId personId attrValue (database w))
    as Hstored.
  destruct (attribute_upsert_cases attributeClassId personId attrValue (database w))
    as [Hthrow | (_ & Henvs & Hpersons & Hclasses & _ & Hrows)].
  - simpl in Hthrow. rewrite Hthrow. simpl. auto.
  - assert (Hother :
              filter (λ r, ¬ Query.keyed attributeClassId personId r)
                (attributeRows
                   (Query.attribute_upsert attributeClassId personId attrValue (database w)).2)
              = filter (λ r, ¬ Query.keyed attributeClassId personId r)
                  (attributeRows (database w))).
    { destruct Hrows as [-> | (-> & _)].
      - apply filter_other_overwrite; [tauto|].
        intros Hnew. apply Hnew. split; reflexivity.
      - rewrite filter_app.
        rewrite (filter_cons_False _ (newRow attributeClassId personId attrValue))
          by (intros Hnew; apply Hnew; split; reflexivity).
        rewrite filter_nil. apply app_nil_r. }
    destruct (Query.attribute_upsert attributeClassId personId attrValue (database w))
      as [[r|e] db1]; simpl in *; auto.
Qed.

Section WriteThenCachedRead.
Variable ZId : string → bool.

(** X16.  A write shows through the cached read.  When the cache agreed
    with the store and [updatePersonAttribute] returns, no entry, fresh or
    stale, is left under the person's key, the cache still agrees with the
    store, and the next [getPersonCached] for the person ends as
    [getPerson] does there, with the value as [getPerson] computed it:
    with a valid id and a store that answers, it returns what the store
    now holds. *)
Theorem updatePersonAttribute_then_getPersonCached
    (personId attributeClassId attrValue : string) (w : World) :
  coherent ZId w →
  (updatePersonAttribute personId attributeClassId attrValue w).1 = Return () →
  let after := (updatePersonAttribute personId attributeClassId attrValue w).2 in
  cachedEntry [personId] after = None
  ∧ coherent ZId after
  ∧ (getPersonCached ZId personId after).1 = computed (getPerson ZId personId after).1
  ∧ (ZId personId = true → storeUp 1 after →
     (getPersonCached ZId personId after).1
     = Return (Computed (storedPerson (database after) personId))).
Proof.
  intros Hcoh Hret after.
  assert (Hcache : cache after = filter (λ e, personId ∉ entry_tags e) (cache w)).
  { subst after. rewrite updatePersonAttribute_unfold in Hret |- *.
    pose proof (roundTrip_cache (AttributeUpsert attributeClassId personId attrValue)
                  (λ _, Query.attribute_upsert attributeClassId personId attrValue) w)
      as [Hsame _].
    fold (prisma_attribute_upsert attributeClassId personId attrValue) in Hsame.
    destruct (prisma_attribute_upsert attributeClassId personId attrValue w)
      as [[r|e] w1]; [|discriminate]. simpl in *. rewrite Hsame. reflexivity. }
  assert (Hmiss : cachedEntry [personId] after = None)
    by (apply (cachedEntry_revalidated ZId personId w); assumption).
  split; [exact Hmiss|]. split.
  - apply (coherent_inStep ZId w); [apply inStep_updatePersonAttribute | exact Hcoh].
  - split; [apply getPersonCached_miss_outcome; exact Hmiss|].
    intros Hvalid Hup. rewrite (getPersonCached_miss_outcome ZId personId after Hmiss).
    rewrite (getPerson_up ZId personId after Hvalid Hup). reflexivity.
Qed.

(** X15.  A malformed id never reaches the cache.  When the cache agrees
    with the store, [getPersonCached] on a malformed id throws
    ValidationError and leaves the world as it was: no entry answers for
    it, none is filed, and the store is not called. *)
Theorem getPersonCached_malformed_id (personId : string) (w : World) :
  coherent ZId w →
  ZId personId = false →
  getPersonCached ZId personId w = (Throw ValidationError, w).
Proof.
  intros Hcoh Hbad.
  destruct (cachedEntry [personId] w) as [e|] eqn:Hentry.
  - apply cachedEntry_Some in Hentry as (He & Hkey).
    destruct (coherent_entry ZId w e personId Hcoh He Hkey) as (_ & Hvalid & _).
    congruence.
  - rewrite (getPersonCached_miss ZId personId w Hentry).
    rewrite (getPerson_malformed ZId personId w Hbad). reflexivity.
Qed.

End WriteThenCachedRead.

(** ** Find or create, at the edges *)

Section FindOrCreateEdges.
Variable ZId : string → bool.
Variable genId : nat → string.

(** X9.  No userId class, no person.  When nobody in the environment owns
    the userId and the environment has no attribute class named userId,
    [getOrCreatePersonByUserId] throws the plain Error "Attribute class not
    found for the given environmentId" after two lookups; nothing is
    written and no tag is revalidated. *)
Theorem getOrCreatePersonByUserId_missing_class (userId environmentId : string) (w : World) :
  storeUp 2 w →
  head (filter (ownsUserId (database w) environmentId userId) (persons (database w)))
    = None →
  (Query.attributeClass_findFirst environmentId "userId" (database w)).1 = Return None →
  ∃ w1,
    getOrCreatePersonByUserId genId userId environmentId w
      = (Throw (JsError "Attribute class not found for the given environmentId"), w1)
    ∧ database w1 = database w
    ∧ cache w1 = cache w
    ∧ revalidated w1 = revalidated w
    ∧ storeLog w1
      = storeLog w ++ [PersonFindFirst environmentId "userId" userId;
                       AttributeClassFindFirst environmentId "userId"].
Proof.
  intros Hup Hnone Hlookup. rewrite getOrCreatePersonByUserId_unfold.
  unfold prisma_person_findFirst.
  rewrite roundTrip_up by (eapply storeUp_le; [|exact Hup]; lia).
  rewrite person_findFirst_eq, Hnone. cbn [fst snd fmap option_fmap option_map].
  unfold getAttributeClassByName, prisma_attributeClass_findFirst.
  rewrite roundTrip_up by (apply storeUp_called; exact Hup).
  cbn [database called clock].
  destruct (Query.attributeClass_findFirst environmentId "userId" (database w))
    as [r db1] eqn:Hquery.
  assert (db1 = database w) by (unfold Query.attributeClass_findFirst in Hquery; congruence).
  subst db1. simpl in Hlookup. subst r. cbn [fst snd].
  eexists. split; [reflexivity|]. simpl. rewrite <- app_assoc. auto.
Qed.

(** X10.  Somebody owns the userId already.  Then
    [getOrCreatePersonByUserId] returns the first such person of the
    environment after one lookup; nothing is written, nothing is
    revalidated, and the attribute class is not looked up. *)
Theorem getOrCreatePersonByUserId_existing
    (userId environmentId : string) (owner : PersonRow) (w : World) :
  storeUp 1 w →
  head (filter (ownsUserId (database w) environmentId userId) (persons (database w)))
    = Some owner →
  ∃ person w1,
    getOrCreatePersonByUserId genId userId environmentId w = (Return person, w1)
    ∧ id person = person_id owner
    ∧ person_environmentId owner = environmentId
    ∧ onlyLiveAttributes (database w) person
    ∧ database w1 = database w
    ∧ cache w1 = cache w
    ∧ revalidated w1 = revalidated w
    ∧ storeLog w1 = storeLog w ++ [PersonFindFirst environmentId "userId" userId].
Proof.
  intros Hup Hfound.
  rewrite (getOrCreatePersonByUserId_found genId userId environmentId w owner Hup Hfound).
  eexists _, _. split; [reflexivity|]. split; [reflexivity|].
  apply head_filter_elem in Hfound as [[Henv _] _].
  split; [exact Henv|]. split; [apply applySelect_onlyLive|].
  repeat split.
Qed.

(** X11.  What [getOrCreatePersonByUserId] returns is the person on record:
    whenever it returns, with person ids unique before the call, a person
    row of the environment carries the returned id, the store holds the
    returned person under that id, and [getPerson] on the id (when valid,
    against a store that answers) returns the same person. *)
Theorem getOrCreatePersonByUserId_returns_stored_person
    (userId environmentId : string) (w w1 : World) (person : TPerson) :
  NoDup (person_id <$> persons (database w)) →
  getOrCreatePersonByUserId genId userId environmentId w = (Return person, w1) →
  storedPerson (database w1) (id person) = Some person
  ∧ (∃ row, row ∈ persons (database w1)
            ∧ person_id row = id person
            ∧ person_environmentId row = environmentId)
  ∧ (ZId (id person) = true → storeUp 1 w1 →
     (getPerson ZId (id person) w1).1 = Return (Some person)).
Proof.
  intros Hnodup Hrun.
  assert (Hcore : storedPerson (database w1) (id person) = Some person
                  ∧ ∃ row, row ∈ persons (database w1)
                           ∧ person_id row = id person
                           ∧ person_environmentId row = environmentId).
  { rewrite getOrCreatePersonByUserId_unfold in Hrun.
    destruct (prisma_person_findFirst environmentId "userId" userId selectPerson w)
      as [[[raw|]|e] wa] eqn:Hfind; try discriminate.
    - injection Hrun as <- <-.
      apply roundTrip_Return in Hfind as [Hquery _].
      rewrite person_findFirst_eq in Hquery. injection Hquery as Hraw Hdb.
      rewrite <- Hdb.
      destruct (head (filter _ (persons (database w)))) as [q|] eqn:Hq; [|discriminate].
      injection Hraw as <-.
      apply head_filter_elem in Hq as [[Henv _] Hq]. split.
      + unfold storedPerson. simpl. rewrite (findPerson_member _ _ Hnodup Hq). reflexivity.
      + exists q. auto.
    - apply roundTrip_Return in Hfind as [Hquery _].
      rewrite person_findFirst_eq in Hquery. injection Hquery as _ Hdba.
      unfold getAttributeClassByName in Hrun.
      destruct (prisma_attributeClass_findFirst environmentId "userId" wa)
        as [[[cls|]|e] wb] eqn:Hlookup; try discriminate.
      apply roundTrip_Return in Hlookup as [Hquery _].
      unfold Query.attributeClass_findFirst in Hquery. injection Hquery as _ Hdbb.
      destruct (prisma_person_create genId environmentId
                  [(attributeClass_id cls, userId)] selectPerson wb)
        as [[raw|e] wc] eqn:Hcreate; [|discriminate].
      injection Hrun as <- <-.
      apply roundTrip_Return in Hcreate as [Hquery _].
      destruct (person_create_cases genId (clock wb) environmentId
                  [(attributeClass_id cls, userId)] selectPerson (database wb))
        as [(error & Hthrow) | (_ & _ & Hfresh & Hdone)];
        simpl in *; [congruence|].
      rewrite Hdone in Hquery. injection Hquery as <- Hdbc.
      simpl. rewrite <- Hdbc. split.
      + unfold storedPerson.
        rewrite (findPerson_created genId (clock wb) environmentId _ (database wb) Hfresh).
        reflexivity.
      + exists (createdRow genId (clock wb) environmentId (database wb)).
        split; [|split; reflexivity]. simpl. apply elem_of_app. right. left. }
  destruct Hcore as [Hstored Hrow]. split; [exact Hstored|]. split; [exact Hrow|].
  intros Hvalid Hup. rewrite (getPerson_up ZId _ w1 Hvalid Hup). cbn [fst].
  rewrite Hstored. reflexivity.
Qed.

End FindOrCreateEdges.

(** ** The order of the attributes *)

Lemma filter_NoDup_singleton {A B} `{EqDecision B} (f : A → B) (l : list A) (x : A) :
  NoDup (f <$> l) → x ∈ l → filter (λ y, f y = f x) l = [x].
Proof.
  induction l as [|y l IH]; intros Hnodup Hx; [inversion Hx|].
  rewrite fmap_cons in Hnodup. apply NoDup_cons in Hnodup as [Hy Hnodup].
  rewrite filter_cons. apply elem_of_cons in Hx as [<- | Hx].
  - rewrite decide_True by reflexivity. f_equal.
    apply filter_none, Forall_forall. intros z Hz Heq. apply Hy. rewrite <- Heq.
    apply list_elem_of_fmap_2. exact Hz.
  - rewrite decide_False; [apply IH; assumption|].
    intros Heq. apply Hy. rewrite Heq. apply list_elem_of_fmap_2. exact Hx.
Qed.

Lemma transformPrismaPerson_lookup_member (person : TransformPersonInput) (k v : string) :
  NoDup ((λ a, name (attributeClass a)) <$> input_attributes person) →
  k ≠ "__proto__" →
  attributes (transformPrismaPerson person) !! k = Some v
  ↔ {| value := v; attributeClass := {| name := k |} |} ∈ input_attributes person.
Proof.
  intros Hnodup Hproto. rewrite transformPrismaPerson_lookup by exact Hproto. split.
  - intros Hlookup. destruct (last _) as [a|] eqn:Hlast; [|discriminate].
    injection Hlookup as <-. apply last_Some in Hlast as [l' Hlast].
    assert (Hin : a ∈ filter (λ a, name (attributeClass a) = k) (input_attributes person)).
    { rewrite Hlast. apply elem_of_app. right. left. }
    apply list_elem_of_filter in Hin as [<- Hin]. destruct a as [v [k]]. exact Hin.
  - intros Hin.
    rewrite (filter_NoDup_singleton (λ a, name (attributeClass a)) _
               {| value := v; attributeClass := {| name := k |} |} Hnodup Hin).
    reflexivity.
Qed.

(** X12.  The keys of the transformed [attributes] are exactly the names in
    the input other than [__proto__].  When the names are distinct, the
    order of the pairs does not matter: two inputs with the same id and
    timestamps whose attribute sequences are permutations of each other
    transform to the same person. *)
Theorem transformPrismaPerson_order_irrelevant (person person' : TransformPersonInput) :
  (∀ k, is_Some (attributes (transformPrismaPerson person) !! k)
        ↔ k ≠ "__proto__"
          ∧ k ∈ (λ a, name (attributeClass a)) <$> input_attributes person)
  ∧ (input_id person = input_id person' →
     input_createdAt person = input_createdAt person' →
     input_updatedAt person = input_updatedAt person' →
     input_attributes person ≡ₚ input_attributes person' →
     NoDup ((λ a, name (attributeClass a)) <$> input_attributes person) →
     transformPrismaPerson person = transformPrismaPerson person').
Proof.
  split.
  - intros k. split.
    + intros [v Hv]. apply transformPrismaPerson_lookup_Some in Hv as [Hproto Hv].
      split; [exact Hproto|].
      destruct (last _) as [a|] eqn:Hlast; [|discriminate].
      apply last_Some in Hlast as [l' Hlast].
      assert (Hin : a ∈ filter (λ a, name (attributeClass a) = k)
                          (input_attributes person)).
      { rewrite Hlast. apply elem_of_app. right. left. }
      apply list_elem_of_filter in Hin as [<- Hin].
      apply (list_elem_of_fmap_2 (λ a, name (attributeClass a))). exact Hin.
    + intros [Hproto Hk]. rewrite transformPrismaPerson_lookup by exact Hproto.
      apply list_elem_of_fmap in Hk as (a & -> & Ha).
      destruct (filter (λ b, name (attributeClass b) = name (attributeClass a))
                  (input_attributes person)) as [|b l] eqn:Hf.
      * exfalso. exact (filter_nil_not_elem_of _ _ a Hf eq_refl Ha).
      * destruct (last (b :: l)) as [c|] eqn:Hlast; [simpl; eauto|].
        apply last_None in Hlast. discriminate.
  - intros Hid Hcreated Hupdated Hperm Hnodup.
    assert (Hnodup' : NoDup ((λ a, name (attributeClass a)) <$> input_attributes person')).
    { rewrite <- Hperm. exact Hnodup. }
    assert (Hattrs : attributes (transformPrismaPerson person)
                     = attributes (transformPrismaPerson person')).
    { apply map_eq. intros k. destruct (decide (k = "__proto__")) as [-> | Hproto].
      - rewrite !transformPrismaPerson_lookup_proto. reflexivity.
      - apply option_eq. intros v.
        rewrite (transformPrismaPerson_lookup_member person k v Hnodup Hproto).
        rewrite (transformPrismaPerson_lookup_member person' k v Hnodup' Hproto).
        rewrite Hperm. reflexivity. }
    unfold transformPrismaPerson in *. simpl in Hattrs.
    rewrite Hid, Hcreated, Hupdated, Hattrs. reflexivity.
Qed.

(** ** The list after a write *)

Lemma applySelect_ext db db' p :
  attributeClasses db' = attributeClasses db →
  filter (λ r, attribute_personId r = person_id p) (attributeRows db')
    = filter (λ r, attribute_personId r = person_id p) (attributeRows db) →
  Query.applySelect selectPerson db' p = Query.applySelect selectPerson db p.
Proof.
  intros Hclasses Hrows. unfold Query.applySelect. f_equal.
  unfold Query.selectAttributes. rewrite Hrows. apply omap_ext_all. intros r.
  apply selectAttribute_same. exact Hclasses.
Qed.

Lemma fmap_ext_elem {A B} (f g : A → B) (l : list A) :
  (∀ x, x ∈ l → f x = g x) → f <$> l = g <$> l.
Proof.
  intros Hfg. apply list_fmap_ext. intros i x Hx. apply Hfg.
  apply list_elem_of_lookup. eauto.
Qed.

Lemma filter_fmap_pred {A B} (P : B → Prop) (Q : A → Prop)
    `{∀ y, Decision (P y)} `{∀ x, Decision (Q x)} (f : A → B) (l : list A) :
  (∀ x, P (f x) ↔ Q x) → filter P (f <$> l) = f <$> filter Q l.
Proof.
  intros HPQ. induction l as [|x l IH]; [reflexivity|].
  rewrite fmap_cons, !filter_cons, IH. specialize (HPQ x).
  repeat case_decide; try tauto; reflexivity.
Qed.

Section ListAfterWrite.
Variable ZId : string → bool.
Variable genId : nat → string.

(** X17.  Create, then list.  Under the conditions of a successful
    creation, the list of the environment after [createPerson] holds the
    persons listed before it, unchanged, and the new person once more; in
    which order is the store's choice. *)
Theorem createPerson_then_getPeople (environmentId : string) (w : World) :
  ZId environmentId = true →
  storeUp 2 w →
  sound genId (database w) →
  environmentId ∈ environments (database w) →
  ∃ people person w1 listed,
    (getPeople ZId environmentId w).1 = Return people
    ∧ createPerson ZId genId environmentId w = (Return person, w1)
    ∧ (getPeople ZId environmentId w1).1 = Return listed
    ∧ listed ≡ₚ person :: people.
Proof.
  intros Hvalid Hup [Hwf Hfreshids] Henv.
  pose proof (freshIds_next genId (database w) Hfreshids) as Hfresh.
  rewrite (getPeople_up ZId environmentId w Hvalid)
    by (eapply storeUp_le; [|exact Hup]; lia).
  rewrite createPerson_valid by exact Hvalid. unfold prisma_person_create.
  rewrite roundTrip_up by (eapply storeUp_le; [|exact Hup]; lia).
  rewrite person_create_spec by (first [exact Henv | constructor | exact Hfresh]).
  cbn [fst snd].
  eexists _, _, _, _. split; [reflexivity|]. split; [reflexivity|].
  rewrite getPeople_up;
    [|exact Hvalid|apply storeUp_revalidateTag, storeUp_called; exact Hup].
  cbn [fst]. split; [reflexivity|].
  change (database (revalidateTag _ _).2)
    with (created genId (clock w) environmentId [] (database w)).
  cbn [persons created]. rewrite filter_app, fmap_app.
  rewrite filter_cons_True by reflexivity. rewrite filter_nil.
  rewrite Permutation_app_comm. simpl. constructor.
  replace (_ <$> filter _ (persons (database w)))
    with ((λ p, transformPrismaPerson (Query.applySelect selectPerson (database w) p))
            <$> filter (λ p, person_environmentId p = environmentId)
                       (persons (database w))); [reflexivity|].
  apply fmap_ext_elem. intros p _. f_equal. symmetry.
  apply applySelect_ext; [reflexivity|]. simpl. rewrite app_nil_r. reflexivity.
Qed.

(** X18.  Delete, then list.  After a successful [deletePerson] the list of
    any environment holds the persons listed before it other than the
    deleted one, each as before and as often; in which order is the
    store's choice. *)
Theorem deletePerson_then_getPeople (personId environmentId : string) (w : World) :
  ZId personId = true →
  ZId environmentId = true →
  storeUp 2 w →
  is_Some (Query.findPerson (database w) personId) →
  ∃ people w1 listed,
    (getPeople ZId environmentId w).1 = Return people
    ∧ deletePerson ZId personId w = (Return (), w1)
    ∧ (getPeople ZId environmentId w1).1 = Return listed
    ∧ listed ≡ₚ filter (λ person, id person ≠ personId) people.
Proof.
  intros Hvalid Henv Hup [p Hp].
  rewrite (getPeople_up ZId environmentId w Henv)
    by (eapply storeUp_le; [|exact Hup]; lia).
  rewrite deletePerson_valid by exact Hvalid. unfold prisma_person_delete.
  rewrite roundTrip_up by (eapply storeUp_le; [|exact Hup]; lia).
  unfold Query.person_delete. rewrite Hp. cbn [fst snd].
  eexists _, _, _. split; [reflexivity|]. split; [reflexivity|].
  rewrite getPeople_up;
    [|exact Henv|apply storeUp_revalidateTag, storeUp_called; exact Hup].
  cbn [fst]. split; [reflexivity|].
  apply reflexive_eq. cbn [database revalidateTag called snd persons].
  rewrite (filter_fmap_pred (λ person, id person ≠ personId)
             (λ q, person_id q ≠ personId)) by reflexivity.
  rewrite !list_filter_filter.
  rewrite (filter_local (λ q, person_environmentId q = environmentId
                              ∧ person_id q ≠ personId)
             (λ q, person_id q ≠ personId ∧ person_environmentId q = environmentId))
    by (intros q _; tauto).
  apply fmap_ext_elem. intros q Hq. apply list_elem_of_filter in Hq as [[Hne _] _].
  f_equal. apply applySelect_ext; [reflexivity|]. simpl.
  rewrite list_filter_filter. apply filter_local.
  intros r _. split; [tauto|]. intros Hr. split; congruence.
Qed.

End ListAfterWrite.


(** * The properties at work on the sample data *)

Lemma sample_wellFormed : wellFormed Sample.db.
Proof. apply (bool_decide_unpack _). vm_compute. exact I. Defined.

Lemma sample_sound : sound Sample.gen Sample.db.
Proof.
  split; [exact sample_wellFormed|]. split.
  - intros n m Heq. unfold Sample.gen in Heq. simpl in Heq. injection Heq as Heq.
    exact (pretty_nat_inj _ _ Heq).
  - constructor; [|constructor]. exists 0. split; [simpl; lia | reflexivity].
Qed.

(** C1: the two validated operations on a malformed id. *)
Lemma malformed_id_get_delete_fail_before_store_witness :
  Sample.zid "not a cuid" = false
  ∧ getPerson Sample.zid "not a cuid" (Sample.world []) = (Throw ValidationError, Sample.world [])
  ∧ deletePerson Sample.zid "not a cuid" (Sample.world [])
    = (Throw ValidationError, Sample.world []).
Proof.
  split; [reflexivity|].
  pose proof (malformed_id_get_delete_fail_before_store Sample.zid "not a cuid"
                (Sample.world []) eq_refl) as (Hget & Hdelete & _).
  split; [exact Hget | exact Hdelete].
Defined.

(** C1 as stated fails: on a malformed id [updatePersonAttribute] goes to
    the store, and what it throws is the store's error. *)
Lemma updatePersonAttribute_skips_validation :
  Sample.zid "not a cuid" = false
  ∧ (updatePersonAttribute "not a cuid" "c2" "pro" (Sample.world [])).1
    = Throw Query.recordNotFound
  ∧ (updatePersonAttribute "not a cuid" "c2" "pro" (Sample.world [])).1
    ≠ Throw ValidationError
  ∧ storeLog (updatePersonAttribute "not a cuid" "c2" "pro" (Sample.world [])).2
    = [AttributeUpsert "c2" "not a cuid" "pro"].
Proof.
  split; [reflexivity|]. split; [reflexivity|]. split; [discriminate | reflexivity].
Qed.

(** C2: a known request error and another error, through the four
    operations. *)
Lemma known_store_errors_are_rewrapped_witness :
  Sample.zid "p0" = true
  ∧ (getPerson Sample.zid "p0" (Sample.world [Some Sample.timeout])).1
    = Throw (DatabaseError "Database operation failed")
  ∧ (getPeople Sample.zid "p0" (Sample.world [Some Sample.panic])).1
    = Throw Sample.panic
  ∧ (deletePerson Sample.zid "p0" (Sample.world [Some Sample.timeout])).1
    = Throw (DatabaseError "Database operation failed")
  ∧ (createPerson Sample.zid Sample.gen "p0" (Sample.world [Some Sample.timeout])).1
    = Throw (DatabaseError "Timed out fetching a new connection from the connection pool.").
Proof.
  split; [reflexivity|].
  destruct (known_store_errors_are_rewrapped Sample.zid Sample.gen "p0"
              (Sample.world [Some Sample.timeout]) eq_refl)
    as ([Hget _] & _ & [Hdelete _] & [Hcreate _]).
  destruct (known_store_errors_are_rewrapped Sample.zid Sample.gen "p0"
              (Sample.world [Some Sample.panic]) eq_refl)
    as (_ & [_ Hlist] & _).
  split; [exact (Hget _ _ eq_refl)|].
  split; [exact (Hlist Sample.panic eq_refl eq_refl)|].
  split; [exact (Hdelete _ _ eq_refl) | exact (Hcreate _ _ eq_refl)].
Defined.



(** C4: an id without a record, an environment without persons. *)
Lemma absence_is_not_an_error_witness :
  storeUp 1 (Sample.world [])
  ∧ Sample.zid "p9" = true
  ∧ Sample.zid "e2" = true
  ∧ (getPerson Sample.zid "p9" (Sample.world [])).1 = Return None
  ∧ (getPeople Sample.zid "e2" (Sample.world [])).1 = Return [].
Proof.
  assert (Hup : storeUp 1 (Sample.world [])) by constructor.
  destruct (absence_is_not_an_error Sample.zid "p9" "e2" (Sample.world []) Hup)
    as [Hget Hlist].
  split; [exact Hup|]. split; [reflexivity|]. split; [reflexivity|].
  split; [exact (Hget eq_refl eq_refl)|].
  apply (Hlist eq_refl). constructor; [discriminate | constructor].
Defined.

(** C5: the sample person has a row on the archived class "legacy"; the
    name is absent from what [getPerson] returns. *)
Lemma archived_classes_never_appear_witness :
  ∃ person,
    (getPerson Sample.zid "p0" (Sample.world [])).1 = Return (Some person)
    ∧ onlyLiveAttributes Sample.db person
    ∧ attributes person !! "legacy" = None
    ∧ attributes person !! "plan" = Some "free".
Proof.
  eexists. split; [reflexivity|].
  destruct (archived_classes_never_appear Sample.zid (Sample.world [])) as [Hget _].
  destruct (Hget "p0" _ eq_refl) as [Hlive Habsent].
  split; [exact Hlive|]. split; [|reflexivity].
  apply Habsent. intros row cls Hrow Hpid Hcls Hname.
  simpl in Hrow.
  apply elem_of_cons in Hrow as [-> | Hrow];
    [|apply elem_of_cons in Hrow as [-> | Hrow]; [|inversion Hrow]].
  - vm_compute in Hcls. injection Hcls as <-. reflexivity.
  - vm_compute in Hcls. injection Hcls as <-. discriminate.
Defined.





(** C8: nobody owns "abc" in e1; the first call creates p1, the second
    finds it. *)
Lemma getOrCreatePersonByUserId_twice_same_person_witness :
  storeUp 4 (Sample.world [])
  ∧ wellFormed Sample.db
  ∧ ∃ person w1 w2,
      getOrCreatePersonByUserId Sample.gen "abc" "e1" (Sample.world []) = (Return person, w1)
      ∧ getOrCreatePersonByUserId Sample.gen "abc" "e1" w1 = (Return person, w2)
      ∧ id person = "p1"
      ∧ attributes person = {[ "userId" := "abc" ]}
      ∧ length (persons (database w1)) = 2
      ∧ length (persons (database w2)) = 2.
Proof.
  assert (Hup : storeUp 4 (Sample.world [])) by constructor.
  split; [exact Hup|]. split; [exact sample_wellFormed|].
  destruct (getOrCreatePersonByUserId_twice_same_person Sample.gen "abc" "e1"
              Sample.userIdClass (Sample.world []) Hup sample_wellFormed eq_refl eq_refl)
    as (person & w1 & w2 & Hfirst & Hsecond & Hdb & _ & Hcreated & _).
  destruct (Hcreated eq_refl) as (Hpersons & _ & Hattrs).
  exists person, w1, w2.
  split; [exact Hfirst|]. split; [exact Hsecond|].
  assert (Hid : id person = "p1").
  { pose proof Hfirst as Hrun. vm_compute in Hrun. injection Hrun as <- _. reflexivity. }
  split; [exact Hid|]. split; [exact (Hattrs eq_refl)|].
  split; [rewrite Hpersons; reflexivity | rewrite Hdb, Hpersons; reflexivity].
Defined.

(** C9: a known request error leaves both operations as it entered them. *)
Lemma store_errors_propagate_unchanged_witness :
  (updatePersonAttribute "p0" "c2" "pro" (Sample.world [Some Sample.timeout])).1
    = Throw Sample.timeout
  ∧ (getOrCreatePersonByUserId Sample.gen "abc" "e1"
       (Sample.world [None; None; Some Sample.timeout])).1
    = Throw Sample.timeout.
Proof.
  destruct (store_errors_propagate_unchanged Sample.gen) as [Hupdate Hcreate].
  split.
  - apply Hupdate. reflexivity.
  - apply Hcreate. right. eexists. split; [reflexivity|].
    right. right. eexists _, _. split; reflexivity.
Defined.

(** C10: with the person in the cache, a failing delete leaves the entry
    there; a delete that goes through removes it. *)
Lemma invalidation_only_after_store_success_witness :
  let w := (getPersonCached Sample.zid "p0" (Sample.world [None; Some Sample.timeout])).2 in
  let w' := (getPersonCached Sample.zid "p0" (Sample.world [])).2 in
  length (cache w) = 1
  ∧ (deletePerson Sample.zid "p0" w).1 = Throw (DatabaseError "Database operation failed")
  ∧ cache (deletePerson Sample.zid "p0" w).2 = cache w
  ∧ (deletePerson Sample.zid "p0" w').1 = Return ()
  ∧ cache (deletePerson Sample.zid "p0" w').2 = []
  ∧ revalidated (deletePerson Sample.zid "p0" w').2 = ["p0"].
Proof.
  intros w w'.
  destruct (invalidation_only_after_store_success Sample.zid "p0" "c2" "pro" w)
    as (Hfail & _ & _ & _).
  destruct (invalidation_only_after_store_success Sample.zid "p0" "c2" "pro" w')
    as (_ & _ & Hdone & _).
  destruct (Hfail Sample.timeout eq_refl eq_refl) as (_ & _ & Hcache).
  destruct (Hdone eq_refl) as (_ & Hlog & Hcache').
  split; [reflexivity|]. split; [reflexivity|]. split; [exact Hcache|].
  split; [reflexivity|]. split; [rewrite Hcache'; reflexivity | exact Hlog].
Defined.

(** ** More of the service, on the sample data *)

(** X1: a malformed environment id. *)
Lemma malformed_environment_id_list_create_fail_witness :
  Sample.zid "E 1" = false
  ∧ getPeople Sample.zid "E 1" (Sample.world []) = (Throw ValidationError, Sample.world [])
  ∧ createPerson Sample.zid Sample.gen "E 1" (Sample.world [])
    = (Throw ValidationError, Sample.world []).
Proof.
  split; [reflexivity|].
  destruct (malformed_environment_id_list_create_fail Sample.zid Sample.gen "E 1"
              (Sample.world []) eq_refl) as (Hlist & Hcreate & _).
  split; [exact Hlist | exact Hcreate].
Defined.

(** X3: the one person of e1. *)
Lemma getPeople_lists_the_environment_witness :
  Sample.zid "e1" = true
  ∧ storeUp 1 (Sample.world [])
  ∧ ∃ people,
      (getPeople Sample.zid "e1" (Sample.world [])).1 = Return people
      ∧ id <$> people = ["p0"]
      ∧ ∀ person, person ∈ people →
          (getPerson Sample.zid (id person) (Sample.world [])).1 = Return (Some person).
Proof.
  assert (Hup : storeUp 1 (Sample.world [])) by constructor.
  split; [reflexivity|]. split; [exact Hup|].
  destruct (getPeople_lists_the_environment Sample.zid "e1" (Sample.world []) eq_refl Hup)
    as (people & Hlist & Hids & Hget).
  exists people. split; [exact Hlist|]. split; [exact Hids|].
  intros person Hperson.
  destruct (Hget (proj1 sample_wellFormed) person Hperson) as [_ Hlookup].
  apply Hlookup.
  assert (Hid : id person ∈ id <$> people) by (apply list_elem_of_fmap_2; exact Hperson).
  rewrite Hids in Hid. apply list_elem_of_singleton in Hid. rewrite Hid. reflexivity.
Defined.

(** X4: a new person in e1. *)
Lemma createPerson_then_getPerson_witness :
  Sample.zid "e1" = true
  ∧ Sample.zid (Sample.gen 1) = true
  ∧ storeUp 2 (Sample.world [])
  ∧ ∃ person w1,
      createPerson Sample.zid Sample.gen "e1" (Sample.world []) = (Return person, w1)
      ∧ id person = "p1"
      ∧ attributes person = ∅
      ∧ (getPerson Sample.zid "p1" w1).1 = Return (Some person).
Proof.
  assert (Hup : storeUp 2 (Sample.world [])) by constructor.
  split; [reflexivity|]. split; [reflexivity|]. split; [exact Hup|].
  destruct (createPerson_then_getPerson Sample.zid Sample.gen "e1" (Sample.world [])
              eq_refl eq_refl Hup sample_sound (list_elem_of_here _ _))
    as (person & w1 & Hcreate & Hid & Hattrs & _ & _ & _ & Hget).
  exists person, w1. split; [exact Hcreate|]. split; [exact Hid|].
  split; [exact Hattrs|]. rewrite Hid in Hget. exact Hget.
Defined.

(** X5: the sample person, cached and then deleted. *)
Lemma deletePerson_then_absent_witness :
  let w := (getPersonCached Sample.zid "p0" (Sample.world [])).2 in
  Sample.zid "p0" = true
  ∧ storeUp 2 w
  ∧ coherent Sample.zid w
  ∧ (getPersonCached Sample.zid "p0" w).1 ≠ Return (Computed None)
  ∧ (getPersonCached Sample.zid "p0" w).1 ≠ Return (Parsed None)
  ∧ ∃ w1,
      deletePerson Sample.zid "p0" w = (Return (), w1)
      ∧ (getPerson Sample.zid "p0" w1).1 = Return None
      ∧ (getPersonCached Sample.zid "p0" w1).1 = Return (Computed None).
Proof.
  intros w.
  assert (Hup : storeUp 2 w) by (apply (bool_decide_unpack _); vm_compute; exact I).
  assert (Hcoh : coherent Sample.zid w)
    by (apply (bool_decide_unpack _); vm_compute; exact I).
  split; [reflexivity|]. split; [exact Hup|]. split; [exact Hcoh|].
  split; [vm_compute; discriminate|]. split; [vm_compute; discriminate|].
  destruct (deletePerson_then_absent Sample.zid "p0" w eq_refl Hup
              (ex_intro _ Sample.alice eq_refl))
    as (w1 & Hdelete & _ & Hget & Hcached).
  exists w1. split; [exact Hdelete|]. split; [exact Hget|]. apply Hcached, Hcoh.
Defined.

(** X6: nobody carries the id p9. *)
Lemma deletePerson_unknown_id_witness :
  Sample.zid "p9" = true
  ∧ storeUp 1 (Sample.world [])
  ∧ (deletePerson Sample.zid "p9" (Sample.world [])).1
    = Throw (DatabaseError "Database operation failed")
  ∧ database (deletePerson Sample.zid "p9" (Sample.world [])).2 = Sample.db
  ∧ revalidated (deletePerson Sample.zid "p9" (Sample.world [])).2 = [].
Proof.
  assert (Hup : storeUp 1 (Sample.world [])) by constructor.
  split; [reflexivity|]. split; [exact Hup|].
  rewrite (deletePerson_unknown_id Sample.zid "p9" (Sample.world []) eq_refl Hup eq_refl).
  repeat split.
Defined.

(** X7: the same plan written twice. *)
Lemma updatePersonAttribute_same_value_twice_witness :
  let first := updatePersonAttribute "p0" "c2" "pro" (Sample.world []) in
  let second := updatePersonAttribute "p0" "c2" "pro" first.2 in
  storeUp 2 (Sample.world [])
  ∧ first.1 = Return ()
  ∧ second.1 = Return ()
  ∧ database second.2 = database first.2
  ∧ database first.2 ≠ Sample.db.
Proof.
  intros first second.
  assert (Hup : storeUp 2 (Sample.world [])) by constructor.
  destruct (updatePersonAttribute_same_value_twice "p0" "c2" "pro" (Sample.world []) Hup)
    as [Hresult Hdb].
  split; [exact Hup|]. split; [reflexivity|].
  split; [etransitivity; [exact Hresult | reflexivity]|].
  split; [exact Hdb|]. vm_compute. discriminate.
Defined.

(** X8: a write for p0 on a database that holds a second person. *)
Lemma updatePersonAttribute_touches_one_key_witness :
  let w := (createPerson Sample.zid Sample.gen "e1" (Sample.world [])).2 in
  let after := (updatePersonAttribute "p0" "c2" "pro" w).2 in
  is_Some (storedPerson (database w) "p1")
  ∧ persons (database after) = persons (database w)
  ∧ storedPerson (database after) "p1" = storedPerson (database w) "p1"
  ∧ storedPerson (database after) "p0" ≠ storedPerson (database w) "p0".
Proof.
  intros w after.
  destruct (updatePersonAttribute_touches_one_key "p0" "c2" "pro" w)
    as (Hpersons & _ & _ & _ & Hothers).
  split; [vm_compute; eauto|]. split; [exact Hpersons|].
  split; [apply Hothers; discriminate|]. vm_compute. discriminate.
Defined.

(** X9: environment e2 has no attribute classes. *)
Lemma getOrCreatePersonByUserId_missing_class_witness :
  storeUp 2 (Sample.world [])
  ∧ ∃ w1,
      getOrCreatePersonByUserId Sample.gen "abc" "e2" (Sample.world [])
        = (Throw (JsError "Attribute class not found for the given environmentId"), w1)
      ∧ database w1 = Sample.db
      ∧ length (storeLog w1) = 2.
Proof.
  assert (Hup : storeUp 2 (Sample.world [])) by constructor.
  split; [exact Hup|].
  destruct (getOrCreatePersonByUserId_missing_class Sample.gen "abc" "e2" (Sample.world [])
              Hup eq_refl eq_refl)
    as (w1 & Hrun & Hdb & _ & _ & Hlog).
  exists w1. split; [exact Hrun|]. split; [exact Hdb|]. rewrite Hlog. reflexivity.
Defined.

(** X10: after one find-or-create for "abc", p1 owns it. *)
Lemma getOrCreatePersonByUserId_existing_witness :
  let w := (getOrCreatePersonByUserId Sample.gen "abc" "e1" (Sample.world [])).2 in
  storeUp 1 w
  ∧ ∃ person w1,
      getOrCreatePersonByUserId Sample.gen "abc" "e1" w = (Return person, w1)
      ∧ id person = "p1"
      ∧ database w1 = database w
      ∧ revalidated w1 = revalidated w.
Proof.
  intros w.
  assert (Hup : storeUp 1 w) by (apply (bool_decide_unpack _); vm_compute; exact I).
  split; [exact Hup|].
  destruct (getOrCreatePersonByUserId_existing Sample.gen "abc" "e1"
              {| person_id := "p1"; person_environmentId := "e1";
                 person_createdAt := 1000; person_updatedAt := 1000 |}
              w Hup eq_refl)
    as (person & w1 & Hrun & Hid & _ & _ & Hdb & _ & Hreval & _).
  exists person, w1. split; [exact Hrun|]. split; [exact Hid|].
  split; [exact Hdb | exact Hreval].
Defined.

(** X11: the person created for "abc" is the one on record. *)
Lemma getOrCreatePersonByUserId_returns_stored_person_witness :
  NoDup (person_id <$> persons Sample.db)
  ∧ ∃ person w1,
      getOrCreatePersonByUserId Sample.gen "abc" "e1" (Sample.world []) = (Return person, w1)
      ∧ storedPerson (database w1) (id person) = Some person
      ∧ (getPerson Sample.zid (id person) w1).1 = Return (Some person).
Proof.
  split; [exact (proj1 sample_wellFormed)|].
  eexists _, _. split; [vm_compute; reflexivity|].
  match goal with
  | |- storedPerson (database ?w1) (id ?person) = _ ∧ _ =>
      destruct (getOrCreatePersonByUserId_returns_stored_person Sample.zid Sample.gen
                  "abc" "e1" (Sample.world []) w1 person (proj1 sample_wellFormed))
        as (Hstored & _ & Hget); [vm_compute; reflexivity|];
      split; [exact Hstored|];
      apply Hget; [reflexivity | apply (bool_decide_unpack _); vm_compute; exact I]
  end.
Defined.

(** X12: two attributes in either order. *)
Lemma transformPrismaPerson_order_irrelevant_witness :
  let plan := {| value := "free"; attributeClass := {| name := "plan" |} |} in
  let userId := {| value := "abc"; attributeClass := {| name := "userId" |} |} in
  transformPrismaPerson
    {| input_id := "p0"; input_attributes := [plan; userId];
       input_createdAt := 10; input_updatedAt := 10 |}
  = transformPrismaPerson
      {| input_id := "p0"; input_attributes := [userId; plan];
         input_createdAt := 10; input_updatedAt := 10 |}.
Proof.
  intros plan userId.
  apply (proj2 (transformPrismaPerson_order_irrelevant _ _));
    try reflexivity.
  - apply perm_swap.
  - apply (bool_decide_unpack _). vm_compute. exact I.
Defined.

(** X13: a cached read, a write, a cached read. *)
Lemma coherent_serveAll_witness :
  let requests := [GetPersonCached "p0"; UpdatePersonAttribute "p0" "c2" "pro";
                   GetPersonCached "p0"; CreatePerson "e1"; GetPersonCached "p1"] in
  cache (Sample.world []) = []
  ∧ coherent Sample.zid (serveAll Sample.zid Sample.gen requests (Sample.world []))
  ∧ length (cache (serveAll Sample.zid Sample.gen requests (Sample.world []))) = 2.
Proof.
  intros requests. split; [reflexivity|].
  split; [apply coherent_serveAll; reflexivity | reflexivity].
Defined.


(** X15: a malformed id against a cache that holds the sample person. *)
Lemma getPersonCached_malformed_id_witness :
  let w := (getPersonCached Sample.zid "p0" (Sample.world [])).2 in
  coherent Sample.zid w
  ∧ Sample.zid "not a cuid" = false
  ∧ getPersonCached Sample.zid "not a cuid" w = (Throw ValidationError, w).
Proof.
  intros w.
  assert (Hcoh : coherent Sample.zid w)
    by (apply (bool_decide_unpack _); vm_compute; exact I).
  split; [exact Hcoh|]. split; [reflexivity|].
  apply (getPersonCached_malformed_id Sample.zid "not a cuid" w Hcoh eq_refl).
Defined.

(** X16: the plan is cached as "free", then written as "pro". *)
Lemma updatePersonAttribute_then_getPersonCached_witness :
  let w := (getPersonCached Sample.zid "p0" (Sample.world [])).2 in
  let after := (updatePersonAttribute "p0" "c2" "pro" w).2 in
  coherent Sample.zid w
  ∧ (attributes <$> (storedPerson (database w) "p0")) = Some {[ "plan" := "free" ]}
  ∧ is_Some (cachedEntry ["p0"] w)
  ∧ cachedEntry ["p0"] after = None
  ∧ (getPersonCached Sample.zid "p0" after).1
    = Return (Computed (storedPerson (database after) "p0"))
  ∧ (attributes <$> (storedPerson (database after) "p0")) = Some {[ "plan" := "pro" ]}.
Proof.
  intros w after.
  assert (Hcoh : coherent Sample.zid w)
    by (apply (bool_decide_unpack _); vm_compute; exact I).
  destruct (updatePersonAttribute_then_getPersonCached Sample.zid "p0" "c2" "pro" w
              Hcoh eq_refl)
    as (Hmiss & _ & _ & Hcached).
  split; [exact Hcoh|]. split; [vm_compute; reflexivity|]. split; [vm_compute; eauto|].
  split; [exact Hmiss|]. split; [|vm_compute; reflexivity].
  apply Hcached; [reflexivity|]. apply (bool_decide_unpack _). vm_compute. exact I.
Defined.

(** X17: e1 lists p0, then p0 and p1. *)
Lemma createPerson_then_getPeople_witness :
  Sample.zid "e1" = true
  ∧ storeUp 2 (Sample.world [])
  ∧ ∃ people person w1 listed,
      (getPeople Sample.zid "e1" (Sample.world [])).1 = Return people
      ∧ createPerson Sample.zid Sample.gen "e1" (Sample.world []) = (Return person, w1)
      ∧ (getPeople Sample.zid "e1" w1).1 = Return listed
      ∧ listed ≡ₚ person :: people
      ∧ length people = 1.
Proof.
  assert (Hup : storeUp 2 (Sample.world [])) by constructor.
  split; [reflexivity|]. split; [exact Hup|].
  destruct (createPerson_then_getPeople Sample.zid Sample.gen "e1" (Sample.world [])
              eq_refl Hup sample_sound (list_elem_of_here _ _))
    as (people & person & w1 & listed & Hbefore & Hcreate & Hafter & Hperm).
  exists people, person, w1, listed. split; [exact Hbefore|]. split; [exact Hcreate|].
  split; [exact Hafter|]. split; [exact Hperm|].
  pose proof Hbefore as Hrun. vm_compute in Hrun. injection Hrun as <-. reflexivity.
Defined.

(** X18: e1 lists p0 and p1, then p1 alone. *)
Lemma deletePerson_then_getPeople_witness :
  let w := (createPerson Sample.zid Sample.gen "e1" (Sample.world [])).2 in
  Sample.zid "p0" = true
  ∧ Sample.zid "e1" = true
  ∧ storeUp 2 w
  ∧ ∃ people w1 listed,
      (getPeople Sample.zid "e1" w).1 = Return people
      ∧ deletePerson Sample.zid "p0" w = (Return (), w1)
      ∧ (getPeople Sample.zid "e1" w1).1 = Return listed
      ∧ listed ≡ₚ filter (λ person, id person ≠ "p0") people
      ∧ id <$> people = ["p0"; "p1"]
      ∧ id <$> filter (λ person, id person ≠ "p0") people = ["p1"].
Proof.
  intros w.
  assert (Hup : storeUp 2 w) by (apply (bool_decide_unpack _); vm_compute; exact I).
  split; [reflexivity|]. split; [reflexivity|]. split; [exact Hup|].
  destruct (deletePerson_then_getPeople Sample.zid "p0" "e1" w eq_refl eq_refl Hup
              (ex_intro _ Sample.alice eq_refl))
    as (people & w1 & listed & Hbefore & Hdelete & Hafter & Hperm).
  exists people, w1, listed. split; [exact Hbefore|]. split; [exact Hdelete|].
  split; [exact Hafter|]. split; [exact Hperm|].
  pose proof Hbefore as Hrun. vm_compute in Hrun. injection Hrun as <-.
  split; vm_compute; reflexivity.
Defined.
